(** * Room lifecycle and token issuance of the VoIP backend

    A shallow embedding of the Express servers of the repository
    (src/unnamed/part_000, part_001 and part_002) and the properties of
    their four routes: POST /rooms, GET /rooms/:id, POST /rooms/:id/tokens
    and POST /rooms/:id/close.

    The routes talk to collaborators that live outside the repository: the
    Supabase table [rooms], nanoid, the clock, zod, sanitize-html,
    jsonwebtoken and the LiveKit SDK.  A route is a program over calls to
    the stateful collaborators ([Prog]); the pure libraries are functions. *)

From Stdlib Require Import ZArith String Ascii List Floats Lia.
From stdpp Require Import base option strings gmap list.

Open Scope string_scope.
Set Warnings "-register-all".

(** ** JavaScript values *)

(** A JSON value as [express.json()] hands it to a route.  A JS string is a
    Rocq [string], one character per UTF-16 code unit (exact on ASCII text);
    a JS number is an IEEE 754 double. *)
Inductive json : Type :=
| JNull
| JBool (b : bool)
| JNum (x : float)
| JStr (s : string)
| JArr (xs : list json)
| JObj (fields : list (string * json)).

(** A JS object: its own properties in insertion order, keys unique. *)
Definition obj : Type := list (string * json).

(** [o[k]]; [None] is [undefined]. *)
Fixpoint obj_get (k : string) (o : obj) : option json :=
  match o with
  | [] => None
  | (k', v) :: rest => if String.eqb k k' then Some v else obj_get k rest
  end.

(** [o[k] = v]: an existing key keeps its place, a new key goes last. *)
Fixpoint obj_set (k : string) (v : json) (o : obj) : obj :=
  match o with
  | [] => [(k, v)]
  | (k', v') :: rest =>
      if String.eqb k k' then (k', v) :: rest else (k', v') :: obj_set k v rest
  end.

(** [{ ...dst, ...src }]: the properties of [src] assigned onto [dst] in order. *)
Definition obj_spread (dst src : obj) : obj :=
  fold_left (fun o kv => obj_set (fst kv) (snd kv) o) src dst.

(** [room.state === 'closed'] and the like: strict equality with a string. *)
Definition js_is_string (s : string) (v : option json) : bool :=
  match v with
  | Some (JStr s') => String.eqb s' s
  | _ => false
  end.

(** ** zod *)

Inductive ZodIssueCode : Type :=
| invalid_type
| too_small
| too_big
| invalid_string
| invalid_enum_value.

Record ZodIssue : Type := { issue_code : ZodIssueCode; issue_path : list string }.

(** The outcome of [safeParse]: the issues found, or the parsed value. *)
Definition ZodResult (A : Type) : Type := list ZodIssue + A.

Inductive StringCheck : Type :=
| SMin (n : nat)
| SMax (n : nat)
| SDatetime.

Inductive NumberCheck : Type :=
| NMin (v : float)
| NMax (v : float).

Definition is_digit (c : ascii) : bool :=
  let n := nat_of_ascii c in (48 <=? n)%nat && (n <=? 57)%nat.

Fixpoint all_digits (s : string) : bool :=
  match s with
  | EmptyString => true
  | String c rest => is_digit c && all_digits rest
  end.

(** The shape [z.string().datetime()] accepts with its default options:
    [YYYY-MM-DDTHH:MM:SS], an optional fraction of seconds, and [Z] (no
    offset).  Only the lexical shape is modelled. *)
Definition datetime_fraction (s : string) : bool :=
  match s with
  | "Z" => true
  | String "." rest =>
      let n := String.length rest in
      (2 <=? n)%nat && all_digits (substring 0 (n - 1) rest)
      && String.eqb (substring (n - 1) 1 rest) "Z"
  | _ => false
  end.

Definition is_datetime (s : string) : bool :=
  (20 <=? String.length s)%nat
  && all_digits (substring 0 4 s) && String.eqb (substring 4 1 s) "-"
  && all_digits (substring 5 2 s) && String.eqb (substring 7 1 s) "-"
  && all_digits (substring 8 2 s) && String.eqb (substring 10 1 s) "T"
  && all_digits (substring 11 2 s) && String.eqb (substring 13 1 s) ":"
  && all_digits (substring 14 2 s) && String.eqb (substring 16 1 s) ":"
  && all_digits (substring 17 2 s)
  && datetime_fraction (substring 19 (String.length s - 19) s).

Definition string_check_issue (s : string) (c : StringCheck) : option ZodIssueCode :=
  match c with
  | SMin n => if (String.length s <? n)%nat then Some too_small else None
  | SMax n => if (n <? String.length s)%nat then Some too_big else None
  | SDatetime => if is_datetime s then None else Some invalid_string
  end.

Definition number_check_issue (x : float) (c : NumberCheck) : option ZodIssueCode :=
  match c with
  | NMin v => if PrimFloat.ltb x v then Some too_small else None
  | NMax v => if PrimFloat.ltb v x then Some too_big else None
  end.

Definition issues_at (path : list string) (codes : list ZodIssueCode) : list ZodIssue :=
  map (fun c => {| issue_code := c; issue_path := path |}) codes.

(** Every check runs; the value is returned only when none raised an issue. *)
Definition run_checks {A C : Type} (check : A -> C -> option ZodIssueCode)
    (checks : list C) (path : list string) (a : A) : ZodResult A :=
  match omap (check a) checks with
  | [] => inr a
  | codes => inl (issues_at path codes)
  end.

(** [z.string()] with its checks; the input is [None] for [undefined]. *)
Definition z_string (checks : list StringCheck) (path : list string)
    (input : option json) : ZodResult string :=
  match input with
  | Some (JStr s) => run_checks string_check_issue checks path s
  | _ => inl (issues_at path [invalid_type])
  end.

(** [z.number()] with its checks; [NaN] is not a number for zod. *)
Definition z_number (checks : list NumberCheck) (path : list string)
    (input : option json) : ZodResult float :=
  match input with
  | Some (JNum x) =>
      if PrimFloat.is_nan x then inl (issues_at path [invalid_type])
      else run_checks number_check_issue checks path x
  | _ => inl (issues_at path [invalid_type])
  end.

Definition z_boolean (path : list string) (input : option json) : ZodResult bool :=
  match input with
  | Some (JBool b) => inr b
  | _ => inl (issues_at path [invalid_type])
  end.

(** [z.enum(values)], each value paired with its typed counterpart. *)
Definition z_enum {A : Type} (values : list (string * A)) (path : list string)
    (input : option json) : ZodResult A :=
  match input with
  | Some (JStr s) =>
      match find (fun kv => String.eqb s (fst kv)) values with
      | Some kv => inr (snd kv)
      | None => inl (issues_at path [invalid_enum_value])
      end
  | _ => inl (issues_at path [invalid_type])
  end.

(** [inner.default(d)]: [undefined] is replaced by [d] before [inner] runs. *)
Definition z_default {A : Type} (inner : list string -> option json -> ZodResult A)
    (d : json) (path : list string) (input : option json) : ZodResult A :=
  match input with
  | None => inner path (Some d)
  | Some _ => inner path input
  end.

(** [z.object] parses every key of its shape and gathers all the issues. *)
Definition z_pure {A : Type} (a : A) : ZodResult A := inr a.

Definition z_ap {A B : Type} (f : ZodResult (A -> B)) (x : ZodResult A) : ZodResult B :=
  match f, x with
  | inr g, inr a => inr (g a)
  | inr _, inl ix => inl ix
  | inl i, inr _ => inl i
  | inl i, inl ix => inl (i ++ ix)%list
  end.

Infix "<*>" := z_ap (at level 61, left associativity).

(** The key of a [z.object] shape, read from the request body.  Keys of the
    body that the shape does not list are never read, so they are stripped. *)
Definition z_key {A : Type} (o : obj) (k : string)
    (schema : list string -> option json -> ZodResult A) : ZodResult A :=
  schema [k] (obj_get k o).

Definition z_object {A : Type} (shape : obj -> ZodResult A) (input : json) : ZodResult A :=
  match input with
  | JObj o => shape o
  | _ => inl (issues_at [] [invalid_type])
  end.

(** ** The two schemas of the servers (identical in the three files) *)

(** [z.infer<typeof RoomSchema>] *)
Record RoomInput : Type := {
  name : string;
  capacity : float;
  startAt : string;
  endAt : string;
  timezone : string;
  recurring : bool
}.

Definition RoomSchema : json -> ZodResult RoomInput :=
  z_object (fun o =>
    z_pure Build_RoomInput
      <*> z_key o "name" (z_string [SMin 1; SMax 100])
      <*> z_key o "capacity" (z_default (z_number [NMin 1%float; NMax 11%float]) (JNum 11%float))
      <*> z_key o "startAt" (z_string [SDatetime])
      <*> z_key o "endAt" (z_string [SDatetime])
      <*> z_key o "timezone" (z_string [])
      <*> z_key o "recurring" (z_default z_boolean (JBool false))).

(** The parsed value as the JS object zod returns: the keys of the shape, in
    the order of the shape, and nothing else. *)
Definition RoomInput_obj (d : RoomInput) : obj :=
  [("name", JStr (name d)); ("capacity", JNum (capacity d));
   ("startAt", JStr (startAt d)); ("endAt", JStr (endAt d));
   ("timezone", JStr (timezone d)); ("recurring", JBool (recurring d))].

Inductive Role : Type := host | cohost | participant.

Definition Role_string (r : Role) : string :=
  match r with
  | host => "host"
  | cohost => "cohost"
  | participant => "participant"
  end.

(** [z.infer<typeof TokenSchema>] *)
Record TokenInput : Type := {
  role : Role;
  displayName : string
}.

Definition TokenSchema : json -> ZodResult TokenInput :=
  z_object (fun o =>
    z_pure Build_TokenInput
      <*> z_key o "role"
            (z_enum [("host", host); ("cohost", cohost); ("participant", participant)])
      <*> z_key o "displayName" (z_string [SMin 1; SMax 50])).

(** ** Errors a route can catch *)

(** A PostgREST error as supabase-js returns it in [{ data, error }]. *)
Record PostgrestError : Type := { pg_code : string; pg_message : string }.

(** What [catch (error)] can receive. *)
Inductive Exn : Type :=
| ZodError (issues : list ZodIssue)
| StoreError (e : PostgrestError)
| JsError (ename : string) (msg : string).

Definition ZodIssueCode_string (c : ZodIssueCode) : string :=
  match c with
  | invalid_type => "invalid_type"
  | too_small => "too_small"
  | too_big => "too_big"
  | invalid_string => "invalid_string"
  | invalid_enum_value => "invalid_enum_value"
  end.

(** [ZodError.message] is the JSON text of the issue list.  The rendering
    here keeps the code and the path of each issue; the other fields zod
    prints are determined by the check that raised the issue. *)
Definition ZodIssue_string (i : ZodIssue) : string :=
  "{code:" ++ ZodIssueCode_string (issue_code i) ++ ",path:["
  ++ String.concat "," (issue_path i) ++ "]}".

Definition ZodError_message (issues : list ZodIssue) : string :=
  "[" ++ String.concat "," (map ZodIssue_string issues) ++ "]".

(** [error.message] *)
Definition message (e : Exn) : string :=
  match e with
  | ZodError issues => ZodError_message issues
  | StoreError e => pg_message e
  | JsError _ msg => msg
  end.

(** [String(error)] *)
Definition Exn_toString (e : Exn) : string :=
  match e with
  | ZodError issues => "ZodError: " ++ ZodError_message issues
  | StoreError _ => "[object Object]"
  | JsError ename msg =>
      if String.eqb msg EmptyString then ename else ename ++ ": " ++ msg
  end.

(** [Schema.parse(body)]: the parsed value, or a thrown [ZodError]. *)
Definition parse {A : Type} (schema : json -> ZodResult A) (body : json) : Exn + A :=
  match schema body with
  | inl issues => inl (ZodError issues)
  | inr a => inr a
  end.

(** ** sanitize-html with [allowedTags: []] and [allowedAttributes: {}] *)

(** The library hands the input to the tokenizer of htmlparser2 and, with no
    tag allowed, keeps the text only: tags, comments, declarations and
    processing instructions are dropped, the text inside [script], [style],
    [textarea] and [option] elements (its non-text tags) is dropped, character
    references of the text are decoded, and what is left is written by
    [escapeHtml].  [Scan] is the state of the tokenizer, or the non-text
    element whose text is being dropped. *)
Inductive Scan : Type :=
| InText                                (* text *)
| AfterAmp                              (* text, just read "&" *)
| InNamed (acc : string)                (* "&" and letters or digits *)
| NumStart                              (* "&#" *)
| HexStart (x : ascii)                  (* "&#x" or "&#X" *)
| InDec (digits : string)               (* "&#" and decimal digits *)
| InHex (x : ascii) (digits : string)   (* "&#x" and hexadecimal digits *)
| AfterLt                               (* just read "<" *)
| CloseStart (blanks : string)          (* "</" and white space *)
| InCloseName                           (* the name of a closing tag *)
| InName (acc : string)                 (* the name of an opening tag *)
| BeforeAttr (tag : string)             (* in a tag, before an attribute *)
| InAttrName (tag : string)             (* in an attribute name *)
| AfterAttrName (tag : string)          (* after an attribute name *)
| BeforeValue (tag : string)            (* after "=" *)
| InValue (tag : string)                (* in an unquoted value *)
| InQuote (q : ascii) (tag : string)    (* in a quoted value *)
| SelfClosing (tag : string)            (* after "/" in a tag *)
| ToGt                                  (* dropped up to the next ">" *)
| DeclStart                             (* "<!" *)
| DeclDash                              (* "<!-" *)
| CdataStart (n : nat)                  (* "<![" and n characters of "CDATA[" *)
| InComment (e : ascii) (n : nat)       (* up to e e ">", n of them matched *)
| Skip (tag : string)                   (* dropped text of a non-text element *)
| SkipLt (tag : string)                 (* ... just read "<" *)
| SkipName (tag : string) (acc : string).   (* ... reading "</name" *)

Definition is_alpha (c : ascii) : bool :=
  let n := nat_of_ascii c in
  ((65 <=? n)%nat && (n <=? 90)%nat) || ((97 <=? n)%nat && (n <=? 122)%nat).

Definition is_hex_digit (c : ascii) : bool :=
  let n := nat_of_ascii c in
  is_digit c || ((65 <=? n)%nat && (n <=? 70)%nat) || ((97 <=? n)%nat && (n <=? 102)%nat).

Definition is_alnum (c : ascii) : bool := is_alpha c || is_digit c.

Definition is_space (c : ascii) : bool :=
  let n := nat_of_ascii c in
  (n =? 32)%nat || (n =? 9)%nat || (n =? 10)%nat || (n =? 12)%nat || (n =? 13)%nat.

Definition lower (c : ascii) : ascii :=
  let n := nat_of_ascii c in
  if (65 <=? n)%nat && (n <=? 90)%nat then ascii_of_nat (n + 32) else c.

Fixpoint lowercase (s : string) : string :=
  match s with
  | EmptyString => EmptyString
  | String c rest => String (lower c) (lowercase rest)
  end.

Definition nonTextTags : list string := ["script"; "style"; "textarea"; "option"].

Definition is_nonText (tag : string) : bool :=
  existsb (String.eqb (lowercase tag)) nonTextTags.

(** [escapeHtml] on one character of text. *)
Definition escapeHtml_char (c : ascii) : string :=
  if Ascii.eqb c "&" then "&amp;"
  else if Ascii.eqb c "<" then "&lt;"
  else if Ascii.eqb c ">" then "&gt;"
  else String c EmptyString.

(** [escapeHtml(text, false)] *)
Fixpoint escapeHtml (s : string) : string :=
  match s with
  | EmptyString => EmptyString
  | String c rest => escapeHtml_char c ++ escapeHtml rest
  end.

(** *** Character references *)

Definition quote : ascii := ascii_of_nat 34.

(** The references decoded with or without their semicolon.  Of the table of
    named references only the predefined ones are here; [apos] is decoded
    with its semicolon only. *)
Definition legacy_references : list (string * ascii) :=
  [("amp", "&"%char); ("AMP", "&"%char); ("lt", "<"%char); ("LT", "<"%char);
   ("gt", ">"%char); ("GT", ">"%char); ("quot", quote); ("QUOT", quote)].

Fixpoint drop_prefix (p s : string) : option string :=
  match p, s with
  | EmptyString, _ => Some s
  | String a p', String b s' => if Ascii.eqb a b then drop_prefix p' s' else None
  | String _ _, EmptyString => None
  end.

Fixpoint legacy_reference (table : list (string * ascii)) (name : string)
    : option (ascii * string) :=
  match table with
  | [] => None
  | (p, c) :: table' =>
      match drop_prefix p name with
      | Some rest => Some (c, rest)
      | None => legacy_reference table' name
      end
  end.

(** The text written for "&name", followed by ";" when [semi]: the decoded
    character and what follows it, or the characters as they are. *)
Definition named_reference (name : string) (semi : bool) : string :=
  if semi && String.eqb name "apos" then "'"
  else
    match legacy_reference legacy_references name with
    | Some (c, rest) =>
        escapeHtml_char c ++ escapeHtml rest
        ++ (if semi && negb (String.eqb rest EmptyString) then ";" else EmptyString)
    | None => "&amp;" ++ escapeHtml name ++ (if semi then ";" else EmptyString)
    end.

Definition digit_of (c : ascii) : Z :=
  let n := Z.of_nat (nat_of_ascii c) in
  (if is_digit c then n - 48 else if n <=? 70 then n - 55 else n - 87)%Z.

Fixpoint number_of (base : Z) (acc : Z) (digits : string) : Z :=
  match digits with
  | EmptyString => acc
  | String c rest => number_of base (acc * base + digit_of c)%Z rest
  end.

(** The text written for a numeric reference, [written] being its characters
    after "&".  Code points of ASCII are decoded; the others, which a string
    of bytes cannot hold, are left as written. *)
Definition numeric_reference (written : string) (code : Z) (semi : bool) : string :=
  if ((0 <? code) && (code <? 128))%Z then escapeHtml_char (ascii_of_nat (Z.to_nat code))
  else "&amp;" ++ escapeHtml written ++ (if semi then ";" else EmptyString).

Definition decimal_reference (digits : string) (semi : bool) : string :=
  numeric_reference ("#" ++ digits) (number_of 10 0 digits) semi.

Definition hex_reference (x : ascii) (digits : string) (semi : bool) : string :=
  numeric_reference ("#" ++ String x digits) (number_of 16 0 digits) semi.

(** *** The scan *)

(** After the ">" that ends an opening tag: a non-text tag starts dropping. *)
Definition after_tag (tag : string) : Scan :=
  if is_nonText tag then Skip (lowercase tag) else InText.

(** One character of text. *)
Definition text_step (c : ascii) : Scan * string :=
  if Ascii.eqb c "<" then (AfterLt, EmptyString)
  else if Ascii.eqb c "&" then (AfterAmp, EmptyString)
  else (InText, escapeHtml_char c).

(** Text resumed at [c], after [pending] was found to be text. *)
Definition resume (pending : string) (c : ascii) : Scan * string :=
  let (st, out) := text_step c in (st, pending ++ out).

(** Whether [c] is the character at index [n] of "CDATA[". *)
Definition cdata_char (n : nat) (c : ascii) : bool :=
  match String.get n "CDATA[" with
  | Some c' => Ascii.eqb c c'
  | None => false
  end.

(** One character: the next state and the text written. *)
Definition scan_step (st : Scan) (c : ascii) : Scan * string :=
  match st with
  | InText => text_step c
  | AfterAmp =>
      if Ascii.eqb c "#" then (NumStart, EmptyString)
      else if Ascii.eqb c "&" then (AfterAmp, "&amp;")
      else if is_alnum c then (InNamed (String c EmptyString), EmptyString)
      else resume "&amp;" c
  | InNamed acc =>
      if is_alnum c then (InNamed (acc ++ String c EmptyString), EmptyString)
      else if Ascii.eqb c ";" then (InText, named_reference acc true)
      else resume (named_reference acc false) c
  | NumStart =>
      if Ascii.eqb c "x" || Ascii.eqb c "X" then (HexStart c, EmptyString)
      else if is_digit c then (InDec (String c EmptyString), EmptyString)
      else resume "&amp;#" c
  | HexStart x =>
      if is_hex_digit c then (InHex x (String c EmptyString), EmptyString)
      else resume (escapeHtml ("&#" ++ String x EmptyString)) c
  | InDec digits =>
      if is_digit c then (InDec (digits ++ String c EmptyString), EmptyString)
      else if Ascii.eqb c ";" then (InText, decimal_reference digits true)
      else resume (decimal_reference digits false) c
  | InHex x digits =>
      if is_hex_digit c then (InHex x (digits ++ String c EmptyString), EmptyString)
      else if Ascii.eqb c ";" then (InText, hex_reference x digits true)
      else resume (hex_reference x digits false) c
  | AfterLt =>
      if is_alpha c then (InName (String c EmptyString), EmptyString)
      else if Ascii.eqb c "/" then (CloseStart EmptyString, EmptyString)
      else if Ascii.eqb c "!" then (DeclStart, EmptyString)
      else if Ascii.eqb c "?" then (ToGt, EmptyString)
      else resume "&lt;" c
  | CloseStart blanks =>
      if is_space c then (CloseStart (blanks ++ String c EmptyString), EmptyString)
      else if Ascii.eqb c ">" then (InText, escapeHtml ("</" ++ blanks ++ ">"))
      else if is_alpha c then (InCloseName, EmptyString)
      else (ToGt, EmptyString)
  | InCloseName =>
      if Ascii.eqb c ">" then (InText, EmptyString)
      else if is_space c then (ToGt, EmptyString)
      else (InCloseName, EmptyString)
  | InName acc =>
      if Ascii.eqb c ">" then (after_tag acc, EmptyString)
      else if Ascii.eqb c "/" then (SelfClosing acc, EmptyString)
      else if is_space c then (BeforeAttr acc, EmptyString)
      else (InName (acc ++ String c EmptyString), EmptyString)
  | BeforeAttr tag =>
      if Ascii.eqb c ">" then (after_tag tag, EmptyString)
      else if Ascii.eqb c "/" then (SelfClosing tag, EmptyString)
      else if is_space c then (BeforeAttr tag, EmptyString)
      else (InAttrName tag, EmptyString)
  | InAttrName tag =>
      if Ascii.eqb c ">" then (after_tag tag, EmptyString)
      else if Ascii.eqb c "/" then (SelfClosing tag, EmptyString)
      else if Ascii.eqb c "=" then (BeforeValue tag, EmptyString)
      else if is_space c then (AfterAttrName tag, EmptyString)
      else (InAttrName tag, EmptyString)
  | AfterAttrName tag =>
      if Ascii.eqb c ">" then (after_tag tag, EmptyString)
      else if Ascii.eqb c "/" then (SelfClosing tag, EmptyString)
      else if Ascii.eqb c "=" then (BeforeValue tag, EmptyString)
      else if is_space c then (AfterAttrName tag, EmptyString)
      else (InAttrName tag, EmptyString)
  | BeforeValue tag =>
      if Ascii.eqb c ">" then (after_tag tag, EmptyString)
      else if Ascii.eqb c quote || Ascii.eqb c "'" then (InQuote c tag, EmptyString)
      else if is_space c then (BeforeValue tag, EmptyString)
      else (InValue tag, EmptyString)
  | InValue tag =>
      if Ascii.eqb c ">" then (after_tag tag, EmptyString)
      else if is_space c then (BeforeAttr tag, EmptyString)
      else (InValue tag, EmptyString)
  | InQuote q tag =>
      if Ascii.eqb c q then (BeforeAttr tag, EmptyString) else (InQuote q tag, EmptyString)
  | SelfClosing tag =>
      if Ascii.eqb c ">" then (after_tag tag, EmptyString)
      else if Ascii.eqb c "/" || is_space c then (SelfClosing tag, EmptyString)
      else (InAttrName tag, EmptyString)
  | ToGt => if Ascii.eqb c ">" then (InText, EmptyString) else (ToGt, EmptyString)
  | DeclStart =>
      if Ascii.eqb c "-" then (DeclDash, EmptyString)
      else if Ascii.eqb c "[" then (CdataStart 0, EmptyString)
      else (ToGt, EmptyString)
  | DeclDash =>
      if Ascii.eqb c "-" then (InComment "-" 2, EmptyString) else (ToGt, EmptyString)
  | CdataStart n =>
      if cdata_char n c then
        if (n =? 5)%nat then (InComment "]" 0, EmptyString)
        else (CdataStart (S n), EmptyString)
      else if Ascii.eqb c ">" then (InText, EmptyString)
      else (ToGt, EmptyString)
  | InComment e n =>
      if (2 <=? n)%nat && Ascii.eqb c ">" then (InText, EmptyString)
      else if Ascii.eqb c e then (InComment e (Nat.min 2 (S n)), EmptyString)
      else (InComment e 0, EmptyString)
  | Skip tag => if Ascii.eqb c "<" then (SkipLt tag, EmptyString) else (Skip tag, EmptyString)
  | SkipLt tag =>
      if Ascii.eqb c "/" then (SkipName tag EmptyString, EmptyString)
      else if Ascii.eqb c "<" then (SkipLt tag, EmptyString)
      else (Skip tag, EmptyString)
  | SkipName tag acc =>
      if Ascii.eqb c ">" || is_space c then
        if String.eqb (lowercase acc) tag then
          if Ascii.eqb c ">" then (InText, EmptyString) else (ToGt, EmptyString)
        else (Skip tag, EmptyString)
      else if Ascii.eqb c "<" then (SkipLt tag, EmptyString)
      else (SkipName tag (acc ++ String c EmptyString), EmptyString)
  end.

(** At the end of the input: a pending "<", "</" or "&" is text, a character
    reference is decoded without its semicolon, an unfinished tag, comment or
    declaration is dropped. *)
Definition scan_end (st : Scan) : string :=
  match st with
  | AfterAmp => "&amp;"
  | InNamed acc => named_reference acc false
  | NumStart => "&amp;#"
  | HexStart x => escapeHtml ("&#" ++ String x EmptyString)
  | InDec digits => decimal_reference digits false
  | InHex x digits => hex_reference x digits false
  | AfterLt => "&lt;"
  | CloseStart blanks => escapeHtml ("</" ++ blanks)
  | _ => EmptyString
  end.

Fixpoint scan (st : Scan) (s : string) : string :=
  match s with
  | EmptyString => scan_end st
  | String c rest => let (st', out) := scan_step st c in out ++ scan st' rest
  end.

(** Modelled from the spec: [sanitizeHtml(s, { allowedTags: [],
    allowedAttributes: {} })] of the sanitize-html package, which is not part
    of the repository: all markup (tags with their attributes) is stripped and
    plain text is left.  The scan above follows the package and the tokenizer
    of htmlparser2 under it, within these bounds.  Of the named character
    references it knows the predefined ones, of the numeric ones those of
    ASCII: any other reference is taken for text.  The dropped text of a
    non-text element ends at the closing tag of that name, and the content of
    a [title] element is scanned like that of any other element. *)
Definition sanitizeHtml (dirty : string) : string := scan InText dirty.

(** ** jsonwebtoken *)

(** [expiresIn]: a number of seconds, or a time span for the [ms] package. *)
Inductive ExpiresIn : Type :=
| ExpSeconds (n : Z)
| ExpSpan (span : string).

Definition digit_value (c : ascii) : Z := Z.of_nat (nat_of_ascii c - 48).

(** The leading digits of [s] as a number, and what follows them. *)
Fixpoint read_digits (acc : option Z) (s : string) : option Z * string :=
  match s with
  | String c rest =>
      if is_digit c
      then read_digits (Some (10 * default 0%Z acc + digit_value c)%Z) rest
      else (acc, s)
  | EmptyString => (acc, s)
  end.

(** [ms(span)] for a whole number followed by a short unit; [None] is the
    [undefined] that [ms] returns on text it does not recognise. *)
Definition ms (span : string) : option Z :=
  match read_digits None span with
  | (Some n, unit) =>
      if String.eqb unit "ms" then Some n
      else if String.eqb unit "s" then Some (n * 1000)%Z
      else if String.eqb unit "m" then Some (n * 60000)%Z
      else if String.eqb unit "h" then Some (n * 3600000)%Z
      else if String.eqb unit "d" then Some (n * 86400000)%Z
      else None
  | (None, _) => None
  end.

(** [timespan(expiresIn, iat)]: the [exp] claim, in seconds. *)
Definition timespan (e : ExpiresIn) (iat : Z) : option Z :=
  match e with
  | ExpSeconds n => Some (iat + n)%Z
  | ExpSpan span => (fun millis => (iat + millis / 1000)%Z) <$> ms span
  end.

(** A signed token, with the signature abstracted to the key that made it:
    the claims given to [sign], and the [iat] and [exp] that [sign] adds. *)
Record Jwt : Type := {
  jwt_claims : obj;
  jwt_iat : Z;
  jwt_exp : Z;
  jwt_key : string
}.

(** [jwt.sign(payload, secret, { expiresIn })] at the clock reading [now] (in
    milliseconds, as [Date.now()] gives it). *)
Definition jwt_sign (payload : obj) (secret : string) (expiresIn : ExpiresIn)
    (now : Z) : Exn + Jwt :=
  if String.eqb secret EmptyString
  then inl (JsError "Error" "secretOrPrivateKey must have a value")
  else
    let iat := (now / 1000)%Z in
    match timespan expiresIn iat with
    | Some exp =>
        inr {| jwt_claims := payload; jwt_iat := iat; jwt_exp := exp; jwt_key := secret |}
    | None =>
        inl (JsError "Error"
               "expiresIn should be a number of seconds or string representing a timespan")
    end.

(** [jwt.verify(token, secret)] at the clock reading [now]. *)
Definition jwt_verify (token : Jwt) (secret : string) (now : Z) : Exn + Jwt :=
  if negb (String.eqb (jwt_key token) secret)
  then inl (JsError "JsonWebTokenError" "invalid signature")
  else if (jwt_exp token <=? now / 1000)%Z
  then inl (JsError "TokenExpiredError" "jwt expired")
  else inr token.

(** ** LiveKit access tokens (used by part_001 only) *)

(** The lifetime of an [AccessToken] built without a [ttl] option. *)
Definition defaultTTL : ExpiresIn := ExpSpan "6h".

Record AccessToken : Type := {
  apiKey : string;
  apiSecret : string;
  identity : string;
  ttl : ExpiresIn;
  grants : obj
}.

(** [new AccessToken(apiKey, apiSecret, { identity })] *)
Definition AccessToken_new (key secret : option string) (identity : string)
    : Exn + AccessToken :=
  match key, secret with
  | Some k, Some s =>
      if String.eqb k EmptyString || String.eqb s EmptyString
      then inl (JsError "Error" "api-key and api-secret must be set")
      else inr {| apiKey := k; apiSecret := s; identity := identity;
                  ttl := defaultTTL; grants := [] |}
  | _, _ => inl (JsError "Error" "api-key and api-secret must be set")
  end.

(** [at.addGrant(grant)] *)
Definition addGrant (grant : obj) (t : AccessToken) : AccessToken :=
  {| apiKey := apiKey t; apiSecret := apiSecret t; identity := identity t;
     ttl := ttl t; grants := obj_spread (grants t) grant |}.

(** [at.toJwt()], in the synchronous form the route calls it in: a join
    grant needs an identity, and the token is signed with the secret for the
    lifetime [ttl]. *)
Definition toJwt (t : AccessToken) (now : Z) : Exn + Jwt :=
  if String.eqb (identity t) EmptyString
     && match obj_get "roomJoin" (grants t) with Some (JBool true) => true | _ => false end
  then inl (JsError "Error" "identity is required for join but not set")
  else
    jwt_sign [("video", JObj (grants t)); ("iss", JStr (apiKey t)); ("sub", JStr (identity t))]
      (apiSecret t) (ttl t) now.

(** ** Routes as programs *)

(** A query on the table [rooms], each ending in [.select().single()]. *)
Inductive RoomsQuery : Type :=
| Insert (row : obj)                    (* .insert([row]) *)
| SelectById (id : string)              (* .select('*').eq('id', id) *)
| UpdateById (patch : obj) (id : string). (* .update(patch).eq('id', id) *)

(** [{ data, error }] *)
Record Reply : Type := { data : option obj; error : option PostgrestError }.

(** The calls a route makes to the world outside it. *)
Inductive Call : Type -> Type :=
| nanoid (size : nat) : Call string
| Date_now : Call Z
| process_env (var : string) : Call (option string)
| rooms (q : RoomsQuery) : Call Reply.

Inductive Prog (A : Type) : Type :=
| Ret (a : A)
| Bind {X : Type} (c : Call X) (k : X -> Prog A).

Arguments Ret {A} a.
Arguments Bind {A X} c k.

Fixpoint bind {A B : Type} (p : Prog A) (f : A -> Prog B) : Prog B :=
  match p with
  | Ret a => f a
  | Bind c k => Bind c (fun x => bind (k x) f)
  end.

(** A program inside [try { ... }]: it ends in a value or a thrown error. *)
Definition Try (A : Type) : Type := Prog (Exn + A).

Definition ok {A : Type} (a : A) : Try A := Ret (inr a).
Definition throw {A : Type} (e : Exn) : Try A := Ret (inl e).
Definition await {X : Type} (c : Call X) : Try X := Bind c ok.
Definition lift {A : Type} (r : Exn + A) : Try A := Ret r.

Definition bind_try {A B : Type} (p : Try A) (f : A -> Try B) : Try B :=
  bind p (fun r => match r with inl e => throw e | inr a => f a end).

(** [try { p } catch (error) { handler }] *)
Definition try_catch {A : Type} (p : Try A) (handler : Exn -> Prog A) : Prog A :=
  bind p (fun r => match r with inl e => handler e | inr a => Ret a end).

Declare Scope try_scope.
Delimit Scope try_scope with try.
Notation "x <- p ;; q" := (bind_try p (fun x => q))
  (at level 100, p at next level, right associativity) : try_scope.

(** The body of a response: [res.json(...)]. *)
Inductive Body : Type :=
| RoomBody (room : option obj)               (* res.json(room) *)
| ErrorBody (msg : string)                   (* res.json({ error: msg }) *)
| TokenBody (token : Jwt)                    (* res.json({ token }) *)
| TokenUrlBody (token : Jwt) (url : option string). (* res.json({ token, url }) *)

Record Response : Type := { status : nat; body : Body }.

Definition res_json (b : Body) : Response := {| status := 200; body := b |}.
Definition res_status_json (code : nat) (b : Body) : Response :=
  {| status := code; body := b |}.

(** [a || b] on an environment variable: unset and empty are both falsy. *)
Definition or_default (v : option string) (d : string) : string :=
  match v with
  | Some s => if String.eqb s EmptyString then d else s
  | None => d
  end.

(** [error.message || String(error)] *)
Definition message_or_string (e : Exn) : string :=
  or_default (Some (message e)) (Exn_toString e).

(** [error || !room || room.state === 'closed'] *)
Definition unavailable (r : Reply) : bool :=
  match error r, data r with
  | Some _, _ => true
  | None, None => true
  | None, Some room => js_is_string "closed" (obj_get "state" room)
  end.

Local Open Scope try_scope.

(** *** src/unnamed/part_000: the TypeScript server *)
Module Part000.

(** [{ id: nanoid(10), ...data, state: 'scheduled' }] *)
Definition new_room (id : string) (input : RoomInput) : obj :=
  obj_set "state" (JStr "scheduled")
    (obj_spread (obj_set "id" (JStr id) []) (RoomInput_obj input)).

(** [app.post('/rooms', ...)] *)
Definition post_rooms (req_body : json) : Prog Response :=
  try_catch
    (input <- lift (parse RoomSchema req_body) ;;
     id <- await (nanoid 10) ;;
     reply <- await (rooms (Insert (new_room id input))) ;;
     match error reply with
     | Some e => throw (StoreError e)
     | None => ok (res_json (RoomBody (data reply)))
     end)
    (fun e => Ret (res_status_json 400 (ErrorBody (message e)))).

(** [app.get('/rooms/:id', ...)] *)
Definition get_rooms_id (id : string) : Prog Response :=
  Bind (rooms (SelectById id)) (fun reply =>
    match error reply with
    | Some _ => Ret (res_status_json 404 (ErrorBody "Room not found"))
    | None => Ret (res_json (RoomBody (data reply)))
    end).

(** [{ roomId: req.params.id, role: data.role, identity: sanitizedName }] *)
Definition token_claims (id : string) (r : Role) (sanitizedName : string) : obj :=
  [("roomId", JStr id); ("role", JStr (Role_string r)); ("identity", JStr sanitizedName)].

(** [app.post('/rooms/:id/tokens', ...)] *)
Definition post_rooms_id_tokens (id : string) (req_body : json) : Prog Response :=
  try_catch
    (input <- lift (parse TokenSchema req_body) ;;
     reply <- await (rooms (SelectById id)) ;;
     if unavailable reply
     then ok (res_status_json 400 (ErrorBody "Room not available"))
     else
       let sanitizedName := sanitizeHtml (displayName input) in
       secret <- await (process_env "JWT_SECRET") ;;
       now <- await Date_now ;;
       token <- lift (jwt_sign (token_claims id (role input) sanitizedName)
                        (or_default secret "secret") (ExpSpan "15m") now) ;;
       ok (res_json (TokenBody token)))
    (fun _ => Ret (res_status_json 400 (ErrorBody "Invalid token data"))).

(** [app.post('/rooms/:id/close', ...)] *)
Definition post_rooms_id_close (id : string) : Prog Response :=
  Bind (rooms (UpdateById [("state", JStr "closed")] id)) (fun reply =>
    match error reply with
    | Some e => Ret (res_status_json 400 (ErrorBody (pg_message e)))
    | None => Ret (res_json (RoomBody (data reply)))
    end).

End Part000.

(** *** src/unnamed/part_001: the LiveKit server (token route) *)
Module Part001.

(** [app.post('/rooms/:id/tokens', ...)] *)
Definition post_rooms_id_tokens (id : string) (req_body : json) : Prog Response :=
  try_catch
    (input <- lift (parse TokenSchema req_body) ;;
     reply <- await (rooms (SelectById id)) ;;
     if unavailable reply
     then ok (res_status_json 400 (ErrorBody "Room not available"))
     else
       let sanitizedName := sanitizeHtml (displayName input) in
       key <- await (process_env "LIVEKIT_API_KEY") ;;
       secret <- await (process_env "LIVEKIT_API_SECRET") ;;
       at0 <- lift (AccessToken_new key secret sanitizedName) ;;
       let at1 := addGrant [("roomJoin", JBool true); ("room", JStr id)] at0 in
       now <- await Date_now ;;
       livekitToken <- lift (toJwt at1 now) ;;
       url <- await (process_env "LIVEKIT_URL") ;;
       ok (res_json (TokenUrlBody livekitToken url)))
    (fun e => Ret (res_status_json 400 (ErrorBody (message_or_string e)))).

End Part001.

(** *** src/unnamed/part_002: the JavaScript server (room creation) *)
Module Part002.

(** [data.key] on the request body: reading a property of [null] throws. *)
Definition prop (v : json) (k : string) : Exn + option json :=
  match v with
  | JNull => inl (JsError "TypeError" "Cannot read properties of null")
  | JObj o => inr (obj_get k o)
  | _ => inr None
  end.

(** [v ?? null] *)
Definition or_null (v : option json) : json := default JNull v.

(** A property of an object literal: [undefined] leaves no key in the JSON
    that is sent to the table. *)
Definition with_prop (k : string) (v : option json) (o : obj) : obj :=
  match v with
  | Some x => obj_set k x o
  | None => o
  end.

Section WithDate.

(** [new Date(v).toISOString()], of the JS runtime: the ISO text of the
    date [v] denotes, or [None] where [toISOString] throws a RangeError. *)
Variable toISOString : option json -> option string.

Definition iso (v : option json) : Exn + json :=
  match toISOString v with
  | Some s => inr (JStr s)
  | None => inl (JsError "RangeError" "Invalid time value")
  end.

(** [app.post('/rooms', ...)]: the body is used as it arrives,
    [RoomSchema] is declared in the file and never applied. *)
Definition post_rooms (req_body : json) : Prog Response :=
  try_catch
    (id <- await (nanoid 10) ;;
     nm <- lift (prop req_body "name") ;;
     cap <- lift (prop req_body "capacity") ;;
     start <- lift (prop req_body "startAt") ;;
     start_at <- lift (iso start) ;;
     stop <- lift (prop req_body "endAt") ;;
     end_at <- lift (iso stop) ;;
     tz <- lift (prop req_body "timezone") ;;
     recur <- lift (prop req_body "recurring") ;;
     reply <- await (rooms (Insert
       (obj_set "state" (JStr "scheduled")
         (obj_set "recurring" (or_null recur)
           (with_prop "timezone" tz
             (obj_set "end_at" end_at
               (obj_set "start_at" start_at
                 (obj_set "capacity" (or_null cap)
                   (with_prop "name" nm
                     (obj_set "id" (JStr id) [])))))))))) ;;
     match error reply with
     | Some e => throw (StoreError e)
     | None => ok (res_json (RoomBody (data reply)))
     end)
    (fun e => Ret (res_status_json 400 (ErrorBody (message e)))).

End WithDate.

End Part002.

(** ** The world the routes run in *)

(** What the world answers during one request: the id [nanoid] draws, the
    clock, the process environment, and whether the table is reachable
    ([Some e]: every query fails with [e]). *)
Record Oracle : Type := {
  next_id : string;
  clock : Z;
  environ : string -> option string;
  fault : option PostgrestError
}.

Definition reply_ok (row : obj) : Reply := {| data := Some row; error := None |}.
Definition reply_error (e : PostgrestError) : Reply := {| data := None; error := Some e |}.

Definition duplicate_key : PostgrestError :=
  {| pg_code := "23505"; pg_message := "duplicate key value violates unique constraint" |}.
Definition not_null_violation : PostgrestError :=
  {| pg_code := "23502"; pg_message := "null value in column id violates not-null constraint" |}.
Definition no_rows : PostgrestError :=
  {| pg_code := "PGRST116"; pg_message := "JSON object requested, multiple (or no) rows returned" |}.

Definition row_id (row : obj) : option string :=
  match obj_get "id" row with
  | Some (JStr i) => Some i
  | _ => None
  end.

(** Modelled from the spec: the room repository, an external collaborator
    that holds exactly one record per id.  [insert] adds a record under a new
    id and returns it, [getById] returns the record or not-found,
    [updateState] rewrites the record in place and returns it. *)
Definition query (q : RoomsQuery) (db : gmap string obj) : Reply * gmap string obj :=
  match q with
  | Insert row =>
      match row_id row with
      | Some i =>
          match db !! i with
          | None => (reply_ok row, <[i := row]> db)
          | Some _ => (reply_error duplicate_key, db)
          end
      | None => (reply_error not_null_violation, db)
      end
  | SelectById i =>
      match db !! i with
      | Some row => (reply_ok row, db)
      | None => (reply_error no_rows, db)
      end
  | UpdateById patch i =>
      match db !! i with
      | Some row =>
          let row' := obj_spread row patch in (reply_ok row', <[i := row']> db)
      | None => (reply_error no_rows, db)
      end
  end.

(** The answer to one call, the table after it, and the query it made. *)
Definition answer (o : Oracle) {X : Type} (c : Call X) (db : gmap string obj)
    : X * gmap string obj * list RoomsQuery :=
  match c in Call X return X * gmap string obj * list RoomsQuery with
  | nanoid _ => (next_id o, db, [])
  | Date_now => (clock o, db, [])
  | process_env var => (environ o var, db, [])
  | rooms q =>
      match fault o with
      | Some e => (reply_error e, db, [q])
      | None => let (r, db') := query q db in (r, db', [q])
      end
  end.

(** A program run to its end: the result, the table, the queries made. *)
Fixpoint run {A : Type} (o : Oracle) (p : Prog A) (db : gmap string obj)
    : A * gmap string obj * list RoomsQuery :=
  match p with
  | Ret a => (a, db, [])
  | Bind c k =>
      let '(x, db1, q1) := answer o c db in
      let '(a, db2, q2) := run o (k x) db1 in
      (a, db2, (q1 ++ q2)%list)
  end.

Inductive Request : Type :=
| PostRooms (req_body : json)
| GetRoom (id : string)
| PostTokens (id : string) (req_body : json)
| PostClose (id : string).

(** The router of part_000. *)
Definition route (r : Request) : Prog Response :=
  match r with
  | PostRooms b => Part000.post_rooms b
  | GetRoom id => Part000.get_rooms_id id
  | PostTokens id b => Part000.post_rooms_id_tokens id b
  | PostClose id => Part000.post_rooms_id_close id
  end.

(** One request served: the response and the table after it. *)
Definition serve (o : Oracle) (r : Request) (db : gmap string obj)
    : Response * gmap string obj :=
  let '(resp, db', _) := run o (route r) db in (resp, db').

(** The requests of a run, served one after the other. *)
Fixpoint serve_all (reqs : list (Oracle * Request)) (db : gmap string obj)
    : list Response * gmap string obj :=
  match reqs with
  | [] => ([], db)
  | (o, r) :: rest =>
      let (resp, db1) := serve o r db in
      let (resps, db2) := serve_all rest db1 in
      (resp :: resps, db2)
  end.

(** ** Vocabulary of the specification *)

(** The response issueToken gives for an unavailable room. *)
Definition RoomUnavailableError : Response :=
  {| status := 400; body := ErrorBody "Room not available" |}.

(** The response issueToken gives for a request that fails validation. *)
Definition TokenValidationError : Response :=
  {| status := 400; body := ErrorBody "Invalid token data" |}.

(** [room.state] *)
Definition room_state (room : obj) : option json := obj_get "state" room.

Definition is_role (s : string) : bool :=
  String.eqb s "host" || String.eqb s "cohost" || String.eqb s "participant".

(** A token request as the specification wants it: the role is one of the
    three values and the display name has 1 to 50 characters. *)
Definition valid_token_request (req_body : json) : bool :=
  match req_body with
  | JObj o =>
      match obj_get "role" o, obj_get "displayName" o with
      | Some (JStr r), Some (JStr n) =>
          is_role r && (1 <=? String.length n)%nat && (String.length n <=? 50)%nat
      | _, _ => false
      end
  | _ => false
  end.

(** A world for the examples: the table answers, no variable is set. *)
Definition quiet : Oracle :=
  {| next_id := "V1StGXR8_Z"; clock := 1735722000000;
     environ := fun _ => None; fault := None |}.

(** [{ role, displayName }] *)
Definition token_request (r displayName : string) : json :=
  JObj [("role", JStr r); ("displayName", JStr displayName)].

(** A table with the one room [r1], in the given state. *)
Definition one_room (state : string) : gmap string obj :=
  {[ "r1" := [("id", JStr "r1"); ("name", JStr "Standup"); ("state", JStr state)] ]}.



(** The token a successful [jwt.sign] call of part_000 makes. *)
Definition issued_token (o : Oracle) (id : string) (input : TokenInput) : Jwt :=
  {| jwt_claims := Part000.token_claims id (role input) (sanitizeHtml (displayName input));
     jwt_iat := (clock o / 1000)%Z;
     jwt_exp := (clock o / 1000 + 900)%Z;
     jwt_key := or_default (environ o "JWT_SECRET") "secret" |}.

(** What [jwt.verify] throws for a token past its expiry. *)
Definition TokenExpiredError : Exn := JsError "TokenExpiredError" "jwt expired".

(** A world in which the LiveKit variables are set. *)
Definition livekit_world : Oracle :=
  {| next_id := "V1StGXR8_Z"; clock := 1735722000000;
     environ := fun var =>
       if String.eqb var "LIVEKIT_API_KEY" then Some "devkey"
       else if String.eqb var "LIVEKIT_API_SECRET" then Some "devsecret"
       else if String.eqb var "LIVEKIT_URL" then Some "wss://livekit.example"
       else None;
     fault := None |}.












(** What [z.number().min(1).max(11)] lets through: a number that is neither
    below 1 nor above 11. *)
Definition capacity_in_range (x : float) : bool :=
  negb (PrimFloat.is_nan x) && negb (PrimFloat.ltb x 1) && negb (PrimFloat.ltb 11 x).

(** [Number.isInteger] *)
Definition float_is_integer (x : float) : bool :=
  match Prim2SF x with
  | S754_zero _ => true
  | S754_finite _ m e =>
      (0 <=? e)%Z || (Z.pos m mod 2 ^ (- e) =? 0)%Z
  | _ => false
  end.

(** The field constraints of room creation: the object [fields] meets them
    and [input] is what the parser makes of it. *)
Definition room_constraints (fields : obj) (input : RoomInput) : Prop :=
  (obj_get "name" fields = Some (JStr (name input))
   /\ (1 <= String.length (name input) <= 100)%nat)
  /\ (obj_get "capacity" fields = None /\ capacity input = 11%float
      \/ obj_get "capacity" fields = Some (JNum (capacity input))
         /\ capacity_in_range (capacity input) = true)
  /\ (obj_get "startAt" fields = Some (JStr (startAt input))
      /\ is_datetime (startAt input) = true)
  /\ (obj_get "endAt" fields = Some (JStr (endAt input))
      /\ is_datetime (endAt input) = true)
  /\ obj_get "timezone" fields = Some (JStr (timezone input))
  /\ (obj_get "recurring" fields = None /\ recurring input = false
      \/ obj_get "recurring" fields = Some (JBool (recurring input))).

(** The request of the scenario of the specification, with a capacity field
    of choice ([None]: the field is left out). *)
Definition standup (cap : option json) : json :=
  JObj (("name", JStr "Standup")
        :: match cap with Some c => [("capacity", c)] | None => [] end
        ++ [("startAt", JStr "2025-01-01T09:00:00Z");
            ("endAt", JStr "2025-01-01T09:30:00Z");
            ("timezone", JStr "UTC"); ("recurring", JBool false)])%list.

(** Creation refuses the request at validation: the answer is 400 with the
    message of the [ZodError], and the table is not asked anything. *)
Definition create_rejects (req_body : json) : Prop :=
  exists issues, forall (o : Oracle) (db : gmap string obj),
    run o (Part000.post_rooms req_body) db
    = (res_status_json 400 (ErrorBody (ZodError_message issues)), db, []).

(** Creation lets the request through validation with capacity [c]: the
    insert of a room with that capacity is what the table is asked. *)
Definition create_accepts (req_body : json) (c : float) : Prop :=
  exists input, capacity input = c /\
    forall (o : Oracle) (db : gmap string obj),
      snd (run o (Part000.post_rooms req_body) db)
      = [Insert (Part000.new_room (next_id o) input)].

(** The room the scenario request makes, with capacity [c]. *)
Definition standup_room (id : string) (c : float) : obj :=
  [("id", JStr id); ("name", JStr "Standup"); ("capacity", JNum c);
   ("startAt", JStr "2025-01-01T09:00:00Z"); ("endAt", JStr "2025-01-01T09:30:00Z");
   ("timezone", JStr "UTC"); ("recurring", JBool false); ("state", JStr "scheduled")].

(** A request with an empty name, which validation refuses. *)
Definition nameless : json :=
  JObj [("name", JStr EmptyString); ("startAt", JStr "2025-01-01T09:00:00Z");
        ("endAt", JStr "2025-01-01T09:30:00Z"); ("timezone", JStr "UTC")].

(** A world whose table fails every query with the given message. *)
Definition failing (msg : string) : Oracle :=
  {| next_id := "V1StGXR8_Z"; clock := 1735722000000; environ := fun _ => None;
     fault := Some {| pg_code := "XX000"; pg_message := msg |} |}.

(** The id of the room a response carries. *)
Definition created_id (resp : Response) : option string :=
  match body resp with
  | RoomBody (Some room) => row_id room
  | _ => None
  end.

(** The scenario request with an [id] and a [state] smuggled in. *)
Definition forged : json :=
  JObj [("id", JStr "mine"); ("state", JStr "closed"); ("name", JStr "Standup");
        ("startAt", JStr "2025-01-01T09:00:00Z"); ("endAt", JStr "2025-01-01T09:30:00Z");
        ("timezone", JStr "UTC")].

(** A later moment of the quiet world, with another id drawn. *)
Definition quiet_later : Oracle :=
  {| next_id := "Uakgb_J5m9"; clock := 1735722000500;
     environ := fun _ => None; fault := None |}.

(** Every room of the table is in one of the two states. *)
Definition two_states (db : gmap string obj) : Prop :=
  forall id room, db !! id = Some room ->
    room_state room = Some (JStr "scheduled") \/ room_state room = Some (JStr "closed").

(** The JS runtime's [new Date(v).toISOString()] on the two dates of the
    scenario; every other value is left as an invalid date. *)
Definition scenario_dates (v : option json) : option string :=
  match v with
  | Some (JStr s) =>
      if String.eqb s "2025-01-01T09:00:00Z" then Some "2025-01-01T09:00:00.000Z"
      else if String.eqb s "2025-01-01T09:30:00Z" then Some "2025-01-01T09:30:00.000Z"
      else None
  | _ => None
  end.

(** A request that breaks two constraints: no name, and a capacity of 12. *)
Definition oversized : obj :=
  [("name", JStr EmptyString); ("capacity", JNum 12%float);
   ("startAt", JStr "2025-01-01T09:00:00Z"); ("endAt", JStr "2025-01-01T09:30:00Z");
   ("timezone", JStr "UTC")].


(** *** src/unnamed/part_001: room creation *)
Module Part001Rooms.

Section WithDate.

(** [new Date(v).toISOString()], of the JS runtime, as in part_002. *)
Variable toISOString : option json -> option string.

(** The row of the insert: the object literal of the route, key by key. *)
Definition new_room (id : string) (input : RoomInput) (start_at end_at : json) : obj :=
  obj_set "state" (JStr "scheduled")
    (obj_set "recurring" (Part002.or_null (Some (JBool (recurring input))))
      (obj_set "timezone" (JStr (timezone input))
        (obj_set "end_at" end_at
          (obj_set "start_at" start_at
            (obj_set "capacity" (Part002.or_null (Some (JNum (capacity input))))
              (obj_set "name" (JStr (name input))
                (obj_set "id" (JStr id) []))))))).

(** [app.post('/rooms', ...)] *)
Definition post_rooms (req_body : json) : Prog Response :=
  try_catch
    (input <- lift (parse RoomSchema req_body) ;;
     id <- await (nanoid 10) ;;
     start_at <- lift (Part002.iso toISOString (Some (JStr (startAt input)))) ;;
     end_at <- lift (Part002.iso toISOString (Some (JStr (endAt input)))) ;;
     reply <- await (rooms (Insert (new_room id input start_at end_at))) ;;
     match error reply with
     | Some e => throw (StoreError e)
     | None => ok (res_json (RoomBody (data reply)))
     end)
    (fun e => Ret (res_status_json 400 (ErrorBody (message_or_string e)))).

End WithDate.

End Part001Rooms.

(** ** Further vocabulary *)

(** The two objects agree on every key of the list. *)
Definition agree_on (keys : list string) (a b : obj) : Prop :=
  Forall (fun k => obj_get k a = obj_get k b) keys.

Definition RoomSchema_keys : list string :=
  ["name"; "capacity"; "startAt"; "endAt"; "timezone"; "recurring"].

Definition TokenSchema_keys : list string := ["role"; "displayName"].

(** Every record of the table carries its key in its [id] field. *)
Definition keyed_by_id (db : gmap string obj) : Prop :=
  forall id room, db !! id = Some room -> obj_get "id" room = Some (JStr id).

(** The request with the two dates exchanged. *)
Definition swap_dates (fields : obj) (input : RoomInput) : obj :=
  obj_set "startAt" (JStr (endAt input)) (obj_set "endAt" (JStr (startAt input)) fields).

(** A response that reports an error: [{ error: msg }]. *)
Definition is_error_body (b : Body) : bool :=
  match b with
  | ErrorBody _ => true
  | _ => false
  end.

(** The query a request sends when it sends one; creation sends an insert. *)
Definition is_query_of (r : Request) (q : RoomsQuery) : bool :=
  match r, q with
  | PostRooms _, Insert _ => true
  | GetRoom id, SelectById id' => String.eqb id id'
  | PostTokens id _, SelectById id' => String.eqb id id'
  | PostClose id, UpdateById [(k, JStr v)] id' =>
      String.eqb id id' && String.eqb k "state" && String.eqb v "closed"
  | _, _ => false
  end.

(** The request only reads the table. *)
Definition is_read (r : Request) : bool :=
  match r with
  | GetRoom _ | PostTokens _ _ => true
  | _ => false
  end.

(** A room left in a state the server never writes. *)
Definition archived_room : gmap string obj :=
  {[ "r1" := [("id", JStr "r1"); ("name", JStr "Standup"); ("state", JStr "archived")] ]}.

(** A world in which [JWT_SECRET] is set. *)
Definition keyed_world : Oracle :=
  {| next_id := "V1StGXR8_Z"; clock := 1735722000000;
     environ := fun var => if String.eqb var "JWT_SECRET" then Some "s3cr3t" else None;
     fault := None |}.

(** The scenario request with the meeting ending before it starts. *)
Definition backwards : obj :=
  [("name", JStr "Standup"); ("startAt", JStr "2025-01-01T09:30:00Z");
   ("endAt", JStr "2025-01-01T09:00:00Z"); ("timezone", JStr "UTC")].

(** The creations of a run that were answered 200. *)
Fixpoint count_created (reqs : list (Oracle * Request)) (resps : list Response) : nat :=
  match reqs, resps with
  | (_, PostRooms _) :: reqs', resp :: resps' =>
      (if Nat.eqb (status resp) 200 then 1 else 0) + count_created reqs' resps'
  | _ :: reqs', _ :: resps' => count_created reqs' resps'
  | _, _ => 0
  end.

(** * Properties *)

(** The run [H] ended in a response other than the one at hand. *)
Ltac other_response H := injection H as <- _ _; discriminate.

(** ** Objects *)

Lemma obj_get_set_eq (k : string) (v : json) (o : obj) :
  obj_get k (obj_set k v o) = Some v.
Proof.
  induction o as [|[k' v'] o IH]; simpl.
  - now rewrite String.eqb_refl.
  - destruct (String.eqb k k') eqn:E; simpl; rewrite E; auto.
Qed.

Lemma obj_get_set_ne (k k' : string) (v : json) (o : obj) :
  k <> k' -> obj_get k (obj_set k' v o) = obj_get k o.
Proof.
  intros Hne. induction o as [|[k0 v0] o IH]; simpl.
  - apply String.eqb_neq in Hne. now rewrite Hne.
  - destruct (String.eqb k' k0) eqn:E; simpl.
    + apply String.eqb_eq in E. subst k0.
      apply String.eqb_neq in Hne. now rewrite Hne.
    + now rewrite IH.
Qed.

(** ** The schemas *)

Lemma z_ap_inr {A B : Type} (f : ZodResult (A -> B)) (x : ZodResult A) (b : B) :
  f <*> x = inr b <-> exists g a, f = inr g /\ x = inr a /\ b = g a.
Proof.
  destruct f as [i|g], x as [ix|a]; simpl; split;
    try discriminate; try (intros (g' & a' & Hf & Hx & _); discriminate).
  - intros [= <-]. eauto.
  - intros (g' & a' & [= <-] & [= <-] & ->). reflexivity.
Qed.

Lemma z_string_bounds (lo hi : nat) (path : list string) (v : option json) (s : string) :
  z_string [SMin lo; SMax hi] path v = inr s
  <-> v = Some (JStr s) /\ (lo <= String.length s <= hi)%nat.
Proof.
  unfold z_string, run_checks.
  destruct v as [[| | |s'| |]|]; simpl;
    try (split; [discriminate | intros [[=] _]]).
  destruct (Nat.ltb_spec (String.length s') lo), (Nat.ltb_spec hi (String.length s'));
    simpl; split; try discriminate;
    try (intros [[= <-] ?]; lia).
  - intros [= <-]. split; [reflexivity | lia].
  - intros [[= <-] _]. reflexivity.
Qed.

Lemma is_role_Role_string (s : string) :
  is_role s = true <-> exists r, s = Role_string r.
Proof.
  unfold is_role. rewrite !orb_true_iff, !String.eqb_eq. split.
  - intros [[->| ->]| ->]; [exists host | exists cohost | exists participant]; reflexivity.
  - intros [[] ->]; simpl; auto.
Qed.

Lemma z_enum_role (path : list string) (v : option json) (r : Role) :
  z_enum [("host", host); ("cohost", cohost); ("participant", participant)] path v = inr r
  <-> v = Some (JStr (Role_string r)).
Proof.
  unfold z_enum.
  destruct v as [[| | |s| |]|]; simpl; try (split; discriminate).
  destruct (String.eqb_spec s "host") as [->|H1]; simpl.
  { split; [intros [= <-]; reflexivity | destruct r; intros [=]; reflexivity]. }
  destruct (String.eqb_spec s "cohost") as [->|H2]; simpl.
  { split; [intros [= <-]; reflexivity | destruct r; intros [=]; reflexivity]. }
  destruct (String.eqb_spec s "participant") as [->|H3]; simpl.
  { split; [intros [= <-]; reflexivity | destruct r; intros [=]; reflexivity]. }
  split; [discriminate | destruct r; intros [= ->]; congruence].
Qed.

(** What [TokenSchema] accepts, and what it returns then. *)
Lemma TokenSchema_inr (req_body : json) (input : TokenInput) :
  TokenSchema req_body = inr input
  <-> exists o, req_body = JObj o
      /\ obj_get "role" o = Some (JStr (Role_string (role input)))
      /\ obj_get "displayName" o = Some (JStr (displayName input))
      /\ (1 <= String.length (displayName input) <= 50)%nat.
Proof.
  unfold TokenSchema, z_object.
  destruct req_body as [| | | | |o];
    try (split; [discriminate | intros (o' & [=] & _)]).
  rewrite z_ap_inr. split.
  - intros (g & n & Hg & Hn & ->).
    apply z_ap_inr in Hg as (g' & r & [= <-] & Hr & ->).
    apply z_enum_role in Hr. apply z_string_bounds in Hn as [Hn Hlen].
    exists o. simpl. auto.
  - intros (o' & [= <-] & Hr & Hn & Hlen). destruct input as [r n].
    simpl in Hr, Hn, Hlen.
    exists (Build_TokenInput r), n. split; [|split; [|reflexivity]].
    + unfold z_key. apply (z_enum_role ["role"]) in Hr. rewrite Hr. reflexivity.
    + apply z_string_bounds. auto.
Qed.

Lemma TokenSchema_valid (req_body : json) :
  valid_token_request req_body = true <-> exists input, TokenSchema req_body = inr input.
Proof.
  split.
  - unfold valid_token_request.
    destruct req_body as [| | | | |o]; try discriminate.
    destruct (obj_get "role" o) as [[| | |r| |]|] eqn:Hr; try discriminate.
    destruct (obj_get "displayName" o) as [[| | |n| |]|] eqn:Hn; try discriminate.
    rewrite !andb_true_iff, !Nat.leb_le, is_role_Role_string.
    intros [[[r' ->] H1] H2].
    exists {| role := r'; displayName := n |}. apply TokenSchema_inr.
    exists o. simpl. auto.
  - intros [input H]. apply TokenSchema_inr in H as (o & -> & Hr & Hn & Hlen).
    unfold valid_token_request. rewrite Hr, Hn.
    rewrite !andb_true_iff, !Nat.leb_le, is_role_Role_string.
    repeat split; eauto; lia.
Qed.

Lemma TokenSchema_invalid (req_body : json) :
  valid_token_request req_body = false -> exists issues, TokenSchema req_body = inl issues.
Proof.
  intros H. destruct (TokenSchema req_body) as [issues|input] eqn:E; eauto.
  assert (valid_token_request req_body = true) by (apply TokenSchema_valid; eauto).
  congruence.
Qed.

(** ** Running the routes of part_000 *)

(** The token route, run: validation, then one read, then the signature. *)
Lemma run_post_rooms_id_tokens (o : Oracle) (id : string) (req_body : json)
    (db : gmap string obj) :
  run o (Part000.post_rooms_id_tokens id req_body) db =
  match TokenSchema req_body with
  | inl _ => (TokenValidationError, db, [])
  | inr input =>
      let reply :=
        match fault o with
        | Some e => reply_error e
        | None => fst (query (SelectById id) db)
        end in
      if unavailable reply then (RoomUnavailableError, db, [SelectById id])
      else
        match jwt_sign (Part000.token_claims id (role input) (sanitizeHtml (displayName input)))
                (or_default (environ o "JWT_SECRET") "secret") (ExpSpan "15m") (clock o) with
        | inl _ => (TokenValidationError, db, [SelectById id])
        | inr token => (res_json (TokenBody token), db, [SelectById id])
        end
  end.
Proof.
  unfold Part000.post_rooms_id_tokens, parse.
  destruct (TokenSchema req_body) as [issues|input]; [reflexivity|].
  cbn [lift try_catch bind bind_try await throw ok run answer].
  destruct (fault o) as [e|].
  - reflexivity.
  - unfold query. destruct (db !! id) as [room|]; cbn.
    + destruct (js_is_string _ _); [reflexivity|].
      cbn. destruct (jwt_sign _ _ _ _); reflexivity.
    + reflexivity.
Qed.


(** ** Token issuance *)

(** C1: a valid token request for a room that is missing or closed gets the
    one response 400 [Room not available], after the single read; the two
    cases give the same response, so the caller cannot tell them apart. *)
Theorem issueToken_room_unavailable (o : Oracle) (id : string) (req_body : json)
    (db : gmap string obj) :
  valid_token_request req_body = true ->
  db !! id = None
  \/ (exists room, db !! id = Some room /\ room_state room = Some (JStr "closed")) ->
  run o (Part000.post_rooms_id_tokens id req_body) db
  = (RoomUnavailableError, db, [SelectById id]).
Proof.
  intros Hvalid Hroom. rewrite run_post_rooms_id_tokens.
  apply TokenSchema_valid in Hvalid as [input ->].
  destruct (fault o) as [e|]; [reflexivity|].
  unfold query.
  destruct Hroom as [-> | (room & -> & Hclosed)]; [reflexivity|].
  unfold room_state in Hclosed. cbn. rewrite Hclosed. reflexivity.
Qed.

Lemma issueToken_room_unavailable_witness :
  run quiet (Part000.post_rooms_id_tokens "r1" (token_request "host" "Ann")) ∅
  = (RoomUnavailableError, ∅, [SelectById "r1"])
  /\ run quiet (Part000.post_rooms_id_tokens "r1" (token_request "host" "Ann"))
       (one_room "closed")
     = (RoomUnavailableError, one_room "closed", [SelectById "r1"]).
Proof.
  split; apply issueToken_room_unavailable; try reflexivity.
  - left. reflexivity.
  - right. eexists. split; reflexivity.
Defined.

(** C2: the token route validates role and display name first.  A request
    that fails the checks is answered 400 [Invalid token data] by a program
    that makes no call at all, so no room is read, whatever the table holds;
    display names of length 0 and 51 are among them.  A request that passes
    goes on to the read of the room. *)
Theorem issueToken_validates_before_lookup (id : string) (req_body : json) :
  let rejected :=
    Part000.post_rooms_id_tokens id req_body = Ret TokenValidationError
    /\ forall o db, run o (Part000.post_rooms_id_tokens id req_body) db
                    = (TokenValidationError, db, []) in
  (valid_token_request req_body = false -> rejected)
  /\ (forall r n, req_body = token_request r n ->
        String.length n = 0 \/ String.length n = 51 -> rejected)
  /\ (valid_token_request req_body = true ->
        exists k, Part000.post_rooms_id_tokens id req_body = Bind (rooms (SelectById id)) k).
Proof.
  assert (Hrej : valid_token_request req_body = false ->
            Part000.post_rooms_id_tokens id req_body = Ret TokenValidationError
            /\ forall o db, run o (Part000.post_rooms_id_tokens id req_body) db
                            = (TokenValidationError, db, [])).
  { intros H. apply TokenSchema_invalid in H as [issues H].
    assert (Hp : Part000.post_rooms_id_tokens id req_body = Ret TokenValidationError).
    { unfold Part000.post_rooms_id_tokens, parse. rewrite H. reflexivity. }
    split; [exact Hp|]. intros o db. rewrite Hp. reflexivity. }
  cbv zeta. split; [exact Hrej|]. split.
  - intros r n -> Hlen. apply Hrej. unfold token_request, valid_token_request.
    cbn [obj_get String.eqb Ascii.eqb Bool.eqb].
    destruct Hlen as [-> | ->]; destruct (is_role r); reflexivity.
  - intros H. apply TokenSchema_valid in H as [input H].
    unfold Part000.post_rooms_id_tokens, parse. rewrite H. cbn. eauto.
Qed.

Lemma issueToken_validates_before_lookup_witness :
  Part000.post_rooms_id_tokens "r1" (token_request "admin" "Ann") = Ret TokenValidationError
  /\ forall o db, run o (Part000.post_rooms_id_tokens "r1" (token_request "admin" "Ann")) db
                  = (TokenValidationError, db, []).
Proof.
  apply (proj1 (issueToken_validates_before_lookup "r1" (token_request "admin" "Ann"))).
  reflexivity.
Defined.


(** ** The sanitizer *)















(** *** What the scan does to text and to tags *)




































(** ** Signing *)

Lemma or_default_nonempty (v : option string) (d : string) :
  d <> EmptyString -> String.eqb (or_default v d) EmptyString = false.
Proof.
  intros Hd. apply String.eqb_neq. unfold or_default.
  destruct v as [s|]; [|exact Hd].
  destruct (String.eqb_spec s EmptyString); auto.
Qed.

Lemma jwt_sign_15m (payload : obj) (secret : string) (now : Z) :
  String.eqb secret EmptyString = false ->
  jwt_sign payload secret (ExpSpan "15m") now
  = inr {| jwt_claims := payload; jwt_iat := (now / 1000)%Z;
           jwt_exp := (now / 1000 + 900)%Z; jwt_key := secret |}.
Proof. intros H. unfold jwt_sign. rewrite H. reflexivity. Qed.

Lemma room_open (room : obj) :
  room_state room <> Some (JStr "closed")
  <-> js_is_string "closed" (obj_get "state" room) = false.
Proof.
  unfold room_state, js_is_string.
  destruct (obj_get "state" room) as [[| | |s| |]|]; try (split; congruence).
  destruct (String.eqb_spec s "closed") as [->|Hne]; split; congruence.
Qed.

(** The token route on a valid request, the table itself never changes. *)
Lemma run_post_rooms_id_tokens_valid (o : Oracle) (id : string) (req_body : json)
    (input : TokenInput) (db : gmap string obj) :
  TokenSchema req_body = inr input ->
  run o (Part000.post_rooms_id_tokens id req_body) db =
  match fault o, db !! id with
  | None, Some room =>
      if js_is_string "closed" (obj_get "state" room)
      then (RoomUnavailableError, db, [SelectById id])
      else (res_json (TokenBody (issued_token o id input)), db, [SelectById id])
  | _, _ => (RoomUnavailableError, db, [SelectById id])
  end.
Proof.
  intros H. rewrite run_post_rooms_id_tokens, H.
  destruct (fault o) as [e|]; [reflexivity|].
  unfold query. destruct (db !! id) as [room|]; [|reflexivity].
  cbn. destruct (js_is_string _ _); [reflexivity|].
  rewrite jwt_sign_15m by (apply or_default_nonempty; discriminate).
  reflexivity.
Qed.





(** ** Expiry *)

(** Tokens of the [jwt.sign] route of part_000 expire 900 seconds after they
    were signed: [jwt.verify] accepts them before that and throws
    [TokenExpiredError] from then on. *)
Theorem jwt_token_expires_after_15_minutes (o : Oracle) (id : string) (req_body : json)
    (db db' : gmap string obj) (resp : Response) (log : list RoomsQuery) (token : Jwt) :
  run o (Part000.post_rooms_id_tokens id req_body) db = (resp, db', log) ->
  body resp = TokenBody token ->
  jwt_iat token = (clock o / 1000)%Z
  /\ jwt_exp token = (jwt_iat token + 15 * 60)%Z
  /\ (forall now, (now < jwt_exp token * 1000)%Z ->
        jwt_verify token (jwt_key token) now = inr token)
  /\ (forall now, (jwt_exp token * 1000 <= now)%Z ->
        jwt_verify token (jwt_key token) now = inl TokenExpiredError).
Proof.
  intros Hrun Hbody.
  destruct (TokenSchema req_body) as [issues|input] eqn:Hparse.
  { rewrite run_post_rooms_id_tokens, Hparse in Hrun.
    other_response Hrun. }
  rewrite (run_post_rooms_id_tokens_valid _ _ _ _ _ Hparse) in Hrun.
  assert (Htok : token = issued_token o id input).
  { destruct (fault o); [other_response Hrun|].
    destruct (db !! id) as [room|]; [|other_response Hrun].
    destruct (js_is_string _ _); injection Hrun as <- _ _; [discriminate|].
    simpl in Hbody. congruence. }
  subst token. cbn [issued_token jwt_iat jwt_exp jwt_key].
  split; [reflexivity|]. split; [lia|].
  unfold jwt_verify. cbn [issued_token jwt_iat jwt_exp jwt_key].
  rewrite String.eqb_refl. cbn [negb].
  split; intros now Hnow.
  - destruct (Z.leb_spec (clock o / 1000 + 900) (now / 1000)); [|reflexivity].
    exfalso. pose proof (Z.mul_div_le now 1000). lia.
  - destruct (Z.leb_spec (clock o / 1000 + 900) (now / 1000)); [reflexivity|].
    exfalso. pose proof (Z.mul_succ_div_gt now 1000). lia.
Qed.

Lemma jwt_token_expires_after_15_minutes_witness :
  let token := issued_token quiet "r1" {| role := host; displayName := "Ann" |} in
  jwt_iat token = (clock quiet / 1000)%Z
  /\ jwt_exp token = (jwt_iat token + 15 * 60)%Z
  /\ (forall now, (now < jwt_exp token * 1000)%Z ->
        jwt_verify token (jwt_key token) now = inr token)
  /\ (forall now, (jwt_exp token * 1000 <= now)%Z ->
        jwt_verify token (jwt_key token) now = inl TokenExpiredError).
Proof.
  apply (jwt_token_expires_after_15_minutes quiet "r1" (token_request "host" "Ann")
           (one_room "scheduled") (one_room "scheduled")
           (res_json (TokenBody (issued_token quiet "r1" {| role := host; displayName := "Ann" |})))
           [SelectById "r1"]);
    reflexivity.
Defined.

Lemma jwt_sign_defaultTTL (payload : obj) (secret : string) (now : Z) :
  String.eqb secret EmptyString = false ->
  jwt_sign payload secret defaultTTL now
  = inr {| jwt_claims := payload; jwt_iat := (now / 1000)%Z;
           jwt_exp := (now / 1000 + 21600)%Z; jwt_key := secret |}.
Proof. intros H. unfold jwt_sign. rewrite H. reflexivity. Qed.

(** The token route of part_001, run. *)
Lemma run_livekit_tokens (o : Oracle) (id : string) (req_body : json)
    (db : gmap string obj) :
  run o (Part001.post_rooms_id_tokens id req_body) db =
  match TokenSchema req_body with
  | inl issues =>
      (res_status_json 400 (ErrorBody (message_or_string (ZodError issues))), db, [])
  | inr input =>
      match fault o, db !! id with
      | None, Some room =>
          if js_is_string "closed" (obj_get "state" room)
          then (RoomUnavailableError, db, [SelectById id])
          else
            match AccessToken_new (environ o "LIVEKIT_API_KEY")
                    (environ o "LIVEKIT_API_SECRET") (sanitizeHtml (displayName input)) with
            | inl e =>
                (res_status_json 400 (ErrorBody (message_or_string e)), db, [SelectById id])
            | inr at0 =>
                match toJwt (addGrant [("roomJoin", JBool true); ("room", JStr id)] at0)
                        (clock o) with
                | inl e =>
                    (res_status_json 400 (ErrorBody (message_or_string e)), db,
                     [SelectById id])
                | inr token =>
                    (res_json (TokenUrlBody token (environ o "LIVEKIT_URL")), db,
                     [SelectById id])
                end
            end
      | _, _ => (RoomUnavailableError, db, [SelectById id])
      end
  end.
Proof.
  unfold Part001.post_rooms_id_tokens, parse.
  destruct (TokenSchema req_body) as [issues|input]; [reflexivity|].
  cbn [lift try_catch bind bind_try await throw ok run answer].
  destruct (fault o) as [e|]; [reflexivity|].
  unfold query. destruct (db !! id) as [room|]; cbn; [|reflexivity].
  destruct (js_is_string _ _); [reflexivity|]. cbn.
  destruct (AccessToken_new _ _ _) as [e|at0]; [reflexivity|]. cbn.
  destruct (toJwt _ _) as [e|token]; reflexivity.
Qed.

(** C4, on part_001: the LiveKit route builds its [AccessToken] without a
    [ttl], so every token it returns lives for the default of the SDK, six
    hours, and not for fifteen minutes. *)
Theorem livekit_token_lifetime (o : Oracle) (id : string) (req_body : json)
    (db db' : gmap string obj) (resp : Response) (log : list RoomsQuery)
    (token : Jwt) (url : option string) :
  run o (Part001.post_rooms_id_tokens id req_body) db = (resp, db', log) ->
  body resp = TokenUrlBody token url ->
  jwt_exp token = (jwt_iat token + 6 * 60 * 60)%Z
  /\ jwt_verify token (jwt_key token) ((jwt_iat token + 15 * 60) * 1000) = inr token.
Proof.
  intros Hrun Hbody. rewrite run_livekit_tokens in Hrun.
  destruct (TokenSchema req_body) as [issues|input];
    [other_response Hrun|].
  destruct (fault o); [other_response Hrun|].
  destruct (db !! id) as [room|]; [|other_response Hrun].
  destruct (js_is_string _ _); [other_response Hrun|].
  destruct (AccessToken_new _ _ _) as [e|at0] eqn:Hnew;
    [other_response Hrun|].
  destruct (toJwt _ _) as [e|token'] eqn:Hjwt; injection Hrun as <- _ _; [discriminate|].
  simpl in Hbody. injection Hbody as -> _.
  assert (Httl : ttl at0 = defaultTTL).
  { unfold AccessToken_new in Hnew.
    destruct (environ o "LIVEKIT_API_KEY"), (environ o "LIVEKIT_API_SECRET");
      try discriminate.
    destruct (_ || _); [discriminate|]. injection Hnew as <-. reflexivity. }
  unfold toJwt in Hjwt. destruct (_ && _); [discriminate|].
  cbn [addGrant ttl apiSecret] in Hjwt. rewrite Httl in Hjwt.
  destruct (String.eqb (apiSecret at0) EmptyString) eqn:Hsecret.
  { unfold jwt_sign in Hjwt. rewrite Hsecret in Hjwt. discriminate. }
  rewrite (jwt_sign_defaultTTL _ _ _ Hsecret) in Hjwt. injection Hjwt as <-.
  cbn [jwt_exp jwt_iat jwt_key]. split; [lia|].
  unfold jwt_verify. cbn [jwt_exp jwt_iat jwt_key].
  rewrite String.eqb_refl. cbn [negb].
  rewrite Z.div_mul by lia.
  destruct (Z.leb_spec (clock o / 1000 + 21600) (clock o / 1000 + 15 * 60));
    [exfalso; lia | reflexivity].
Qed.

Lemma livekit_token_lifetime_witness :
  exists token,
    fst (fst (run livekit_world
                (Part001.post_rooms_id_tokens "r1" (token_request "host" "Ann"))
                (one_room "scheduled")))
    = res_json (TokenUrlBody token (Some "wss://livekit.example"))
    /\ jwt_exp token = (jwt_iat token + 6 * 60 * 60)%Z
    /\ jwt_verify token (jwt_key token) ((jwt_iat token + 15 * 60) * 1000) = inr token.
Proof.
  eexists. split; [reflexivity|].
  eapply (livekit_token_lifetime livekit_world "r1" (token_request "host" "Ann")
            (one_room "scheduled")); reflexivity.
Defined.


(** C10: the display name [<b></b>] passes the length check of
    [TokenSchema] (7 characters) and is empty once sanitized, so the route
    signs a token whose identity is the empty string: the length is checked
    on the name as sent and on nothing else. *)
Theorem issueToken_empty_identity :
  valid_token_request (token_request "participant" "<b></b>") = true
  /\ String.length "<b></b>" = 7
  /\ sanitizeHtml "<b></b>" = EmptyString
  /\ forall (o : Oracle) (id : string) (db : gmap string obj) (room : obj),
       fault o = None -> db !! id = Some room ->
       room_state room <> Some (JStr "closed") ->
       exists token,
         run o (Part000.post_rooms_id_tokens id (token_request "participant" "<b></b>")) db
         = (res_json (TokenBody token), db, [SelectById id])
         /\ obj_get "identity" (jwt_claims token) = Some (JStr EmptyString).
Proof.
  repeat split.
  intros o id db room Hfault Hroom Hopen. apply room_open in Hopen.
  eexists. split.
  - erewrite run_post_rooms_id_tokens_valid by reflexivity.
    rewrite Hfault, Hroom, Hopen. reflexivity.
  - reflexivity.
Qed.

Lemma issueToken_empty_identity_witness :
  exists token,
    run quiet (Part000.post_rooms_id_tokens "r1" (token_request "participant" "<b></b>"))
      (one_room "scheduled")
    = (res_json (TokenBody token), one_room "scheduled", [SelectById "r1"])
    /\ obj_get "identity" (jwt_claims token) = Some (JStr EmptyString).
Proof.
  eapply (proj2 (proj2 (proj2 issueToken_empty_identity)));
    [reflexivity | reflexivity | discriminate].
Defined.

(** ** Running the other routes of part_000 *)

Lemma new_room_fields (id : string) (input : RoomInput) :
  Part000.new_room id input
  = [("id", JStr id); ("name", JStr (name input)); ("capacity", JNum (capacity input));
     ("startAt", JStr (startAt input)); ("endAt", JStr (endAt input));
     ("timezone", JStr (timezone input)); ("recurring", JBool (recurring input));
     ("state", JStr "scheduled")].
Proof. reflexivity. Qed.

Lemma run_post_rooms (o : Oracle) (req_body : json) (db : gmap string obj) :
  run o (Part000.post_rooms req_body) db =
  match RoomSchema req_body with
  | inl issues => (res_status_json 400 (ErrorBody (ZodError_message issues)), db, [])
  | inr input =>
      let row := Part000.new_room (next_id o) input in
      match fault o, db !! next_id o with
      | Some e, _ => (res_status_json 400 (ErrorBody (pg_message e)), db, [Insert row])
      | None, Some _ =>
          (res_status_json 400 (ErrorBody (pg_message duplicate_key)), db, [Insert row])
      | None, None => (res_json (RoomBody (Some row)), <[next_id o := row]> db, [Insert row])
      end
  end.
Proof.
  unfold Part000.post_rooms, parse.
  destruct (RoomSchema req_body) as [issues|input]; [reflexivity|].
  cbn [lift try_catch bind bind_try await throw ok run answer].
  destruct (fault o) as [e|]; [reflexivity|].
  unfold query, row_id. rewrite new_room_fields. cbn [obj_get String.eqb Ascii.eqb Bool.eqb].
  destruct (db !! next_id o); reflexivity.
Qed.

Lemma run_get_rooms_id (o : Oracle) (id : string) (db : gmap string obj) :
  run o (Part000.get_rooms_id id) db =
  match fault o, db !! id with
  | None, Some room => (res_json (RoomBody (Some room)), db, [SelectById id])
  | _, _ => (res_status_json 404 (ErrorBody "Room not found"), db, [SelectById id])
  end.
Proof.
  unfold Part000.get_rooms_id. cbn [run answer].
  destruct (fault o) as [e|]; [reflexivity|].
  unfold query. destruct (db !! id); reflexivity.
Qed.

Lemma run_post_rooms_id_close (o : Oracle) (id : string) (db : gmap string obj) :
  run o (Part000.post_rooms_id_close id) db =
  match fault o, db !! id with
  | Some e, _ => (res_status_json 400 (ErrorBody (pg_message e)), db, [UpdateById [("state", JStr "closed")] id])
  | None, Some room =>
      let room' := obj_set "state" (JStr "closed") room in
      (res_json (RoomBody (Some room')), <[id := room']> db,
       [UpdateById [("state", JStr "closed")] id])
  | None, None =>
      (res_status_json 400 (ErrorBody (pg_message no_rows)), db,
       [UpdateById [("state", JStr "closed")] id])
  end.
Proof.
  unfold Part000.post_rooms_id_close. cbn [run answer].
  destruct (fault o) as [e|]; [reflexivity|].
  unfold query. destruct (db !! id); reflexivity.
Qed.


(** ** What [RoomSchema] accepts *)

Lemma z_string_datetime (path : list string) (v : option json) (s : string) :
  z_string [SDatetime] path v = inr s <-> v = Some (JStr s) /\ is_datetime s = true.
Proof.
  unfold z_string, run_checks.
  destruct v as [[| | |s'| |]|]; simpl; try (split; [discriminate | intros [[=] _]]).
  destruct (is_datetime s') eqn:E; simpl; split; try discriminate.
  - intros [= <-]. auto.
  - intros [[= <-] _]. reflexivity.
  - intros [[= <-] ?]. congruence.
Qed.

Lemma z_string_any (path : list string) (v : option json) (s : string) :
  z_string [] path v = inr s <-> v = Some (JStr s).
Proof.
  unfold z_string, run_checks.
  destruct v as [[| | |s'| |]|]; simpl; split; try discriminate; intros [= <-]; reflexivity.
Qed.

Lemma z_boolean_default (path : list string) (v : option json) (b : bool) :
  z_default z_boolean (JBool false) path v = inr b
  <-> v = None /\ b = false \/ v = Some (JBool b).
Proof.
  unfold z_default, z_boolean.
  destruct v as [[|b'| | | |]|]; simpl; split;
    try discriminate; try (intros [[[=] _]|[=]]; fail).
  - intros [= <-]. auto.
  - intros [[[=] _]|[= <-]]. reflexivity.
  - intros [= <-]. auto.
  - intros [[_ ->]|[=]]. reflexivity.
Qed.

Lemma z_number_capacity (path : list string) (v : option json) (c : float) :
  z_default (z_number [NMin 1%float; NMax 11%float]) (JNum 11%float) path v = inr c
  <-> v = None /\ c = 11%float \/ v = Some (JNum c) /\ capacity_in_range c = true.
Proof.
  unfold z_default, z_number, run_checks, capacity_in_range.
  destruct v as [[| |x| | |]|]; simpl; split;
    try discriminate; try (intros [[[=] _]|[[=] _]]; fail).
  - destruct (PrimFloat.is_nan x) eqn:En; [discriminate|].
    destruct (PrimFloat.ltb x 1) eqn:E1, (PrimFloat.ltb 11 x) eqn:E2;
      simpl; try discriminate.
    intros [= <-]. right. split; [reflexivity|]. now rewrite En, E1, E2.
  - intros [[[=] _]|[[= <-] H]].
    destruct (PrimFloat.is_nan _); [discriminate|].
    destruct (PrimFloat.ltb _ 1); [discriminate|].
    destruct (PrimFloat.ltb 11 _); [discriminate|]. reflexivity.
  - intros [= <-]. auto.
  - intros [[_ ->]|[[=] _]]. reflexivity.
Qed.

(** [RoomSchema] accepts exactly the objects that meet the field
    constraints; keys outside the shape play no part. *)
Lemma RoomSchema_inr (req_body : json) (input : RoomInput) :
  RoomSchema req_body = inr input
  <-> exists fields, req_body = JObj fields /\ room_constraints fields input.
Proof.
  unfold RoomSchema, z_object, room_constraints.
  destruct req_body as [| | | | |o];
    try (split; [discriminate | intros (o' & [=] & _)]).
  split.
  - intros H.
    apply z_ap_inr in H as (g5 & r & H & Hr & ->).
    apply z_ap_inr in H as (g4 & tz & H & Htz & ->).
    apply z_ap_inr in H as (g3 & e & H & He & ->).
    apply z_ap_inr in H as (g2 & s & H & Hs & ->).
    apply z_ap_inr in H as (g1 & c & H & Hc & ->).
    apply z_ap_inr in H as (g0 & n & [= <-] & Hn & ->).
    unfold z_key in *.
    apply z_string_bounds in Hn. apply z_number_capacity in Hc.
    apply z_string_datetime in Hs, He. apply z_string_any in Htz.
    apply z_boolean_default in Hr.
    exists o. simpl. intuition.
  - intros (o' & [= <-] & Hn & Hc & Hs & He & Htz & Hr).
    destruct input as [n c s e tz r]. simpl in Hn, Hc, Hs, He, Htz, Hr.
    unfold z_key.
    apply (z_string_bounds 1 100 ["name"]) in Hn. rewrite Hn.
    apply (z_number_capacity ["capacity"]) in Hc. rewrite Hc.
    apply (z_string_datetime ["startAt"]) in Hs. rewrite Hs.
    apply (z_string_datetime ["endAt"]) in He. rewrite He.
    apply (z_string_any ["timezone"]) in Htz. rewrite Htz.
    apply (z_boolean_default ["recurring"]) in Hr. rewrite Hr.
    reflexivity.
Qed.


(** ** Room creation *)

Lemma create_rejects_inl (req_body : json) (issues : list ZodIssue) :
  RoomSchema req_body = inl issues -> create_rejects req_body.
Proof.
  intros H. exists issues. intros o db. now rewrite run_post_rooms, H.
Qed.

Lemma create_accepts_inr (req_body : json) (input : RoomInput) (c : float) :
  RoomSchema req_body = inr input -> capacity input = c -> create_accepts req_body c.
Proof.
  intros H Hc. exists input. split; [exact Hc|]. intros o db.
  rewrite run_post_rooms, H. cbv zeta.
  destruct (fault o), (db !! next_id o); reflexivity.
Qed.

(** C5, as the code has it: with the other fields in order, creation lets a
    capacity through exactly when it is left out (it is then 11) or is a
    number neither below 1 nor above 11, whole or not; it refuses anything
    else at validation.  So 0 and 12 are refused, 1 and 11 are let through,
    1.5 is let through as well, and a capacity that is no number is refused. *)
Theorem create_capacity_range :
  (forall fields : obj,
      (exists input, RoomSchema (JObj (obj_set "capacity" (JNum 5%float) fields)) = inr input) ->
      match obj_get "capacity" fields with
      | None => create_accepts (JObj fields) 11%float
      | Some (JNum x) =>
          if capacity_in_range x then create_accepts (JObj fields) x
          else create_rejects (JObj fields)
      | Some _ => create_rejects (JObj fields)
      end)
  /\ create_rejects (standup (Some (JNum 0%float)))
  /\ create_rejects (standup (Some (JNum 12%float)))
  /\ create_accepts (standup (Some (JNum 1%float))) 1%float
  /\ create_accepts (standup (Some (JNum 11%float))) 11%float
  /\ create_accepts (standup (Some (JNum 1.5%float))) 1.5%float
  /\ create_accepts (standup None) 11%float
  /\ create_rejects (standup (Some (JStr "5"))).
Proof.
  split.
  - intros fields [i0 H0].
    apply RoomSchema_inr in H0 as (f' & [= <-] & Hn & _ & Hs & He & Htz & Hr).
    rewrite !obj_get_set_ne in Hn, Hs, He, Htz, Hr by discriminate.
    assert (Hin : forall c,
               obj_get "capacity" fields = None /\ c = 11%float
               \/ obj_get "capacity" fields = Some (JNum c) /\ capacity_in_range c = true ->
               create_accepts (JObj fields) c).
    { intros c Hc.
      apply (create_accepts_inr _
               {| name := name i0; capacity := c; startAt := startAt i0;
                  endAt := endAt i0; timezone := timezone i0; recurring := recurring i0 |});
        [|reflexivity].
      apply RoomSchema_inr. exists fields. split; [reflexivity|].
      unfold room_constraints. simpl. auto 10. }
    assert (Hout : (forall c, obj_get "capacity" fields = Some (JNum c) ->
                      capacity_in_range c = false) ->
                   obj_get "capacity" fields <> None ->
                   create_rejects (JObj fields)).
    { intros Hc Hsome. destruct (RoomSchema (JObj fields)) as [issues|input] eqn:E.
      - eapply create_rejects_inl; eauto.
      - apply RoomSchema_inr in E as (f' & [= <-] & _ & [[Hc' _]|[Hc' Hr']] & _).
        + contradiction.
        + apply Hc in Hc'. congruence. }
    destruct (obj_get "capacity" fields) as [[| |x| | |]|] eqn:Hcap;
      try (apply Hout; [intros c [=] | discriminate]).
    + destruct (capacity_in_range x) eqn:Hx.
      * apply Hin. auto.
      * apply Hout; [intros c [= <-]; exact Hx | discriminate].
    + apply Hin. auto.
  - repeat apply conj;
      first [ eapply create_rejects_inl; reflexivity
            | eapply create_accepts_inr; reflexivity ].
Qed.

Lemma create_capacity_range_witness :
  create_accepts
    (JObj [("name", JStr "Standup"); ("capacity", JNum 7.25%float);
           ("startAt", JStr "2025-01-01T09:00:00Z"); ("endAt", JStr "2025-01-01T09:30:00Z");
           ("timezone", JStr "UTC")]) 7.25%float.
Proof.
  apply (proj1 create_capacity_range
           [("name", JStr "Standup"); ("capacity", JNum 7.25%float);
            ("startAt", JStr "2025-01-01T09:00:00Z"); ("endAt", JStr "2025-01-01T09:30:00Z");
            ("timezone", JStr "UTC")]).
  eexists. reflexivity.
Defined.

(** C5, the claim as stated fails: a capacity of 1.5 is no integer, and the
    route stores the room and answers 200. *)
Lemma create_accepts_fractional_capacity :
  float_is_integer 1.5%float = false
  /\ run quiet (Part000.post_rooms (standup (Some (JNum 1.5%float)))) ∅
     = (res_json (RoomBody (Some (standup_room "V1StGXR8_Z" 1.5%float))),
        {[ "V1StGXR8_Z" := standup_room "V1StGXR8_Z" 1.5%float ]},
        [Insert (standup_room "V1StGXR8_Z" 1.5%float)]).
Proof. split; reflexivity. Qed.


(** C6, as the code has it: creation parses the request with [RoomSchema]
    first.  A request that breaks a field constraint is answered 400 with the
    message of the [ZodError] by a program that makes no call, so nothing is
    written.  A request that meets the constraints leads to the insert, and
    when the write fails the answer is again 400, with the message of the
    store, and the table is unchanged: the two failures share the status and
    the shape of the body, and the response carries no error kind. *)
Theorem create_validates_before_insert (o : Oracle) (req_body : json)
    (db : gmap string obj) :
  match RoomSchema req_body with
  | inl issues =>
      (forall fields input, req_body = JObj fields -> ~ room_constraints fields input)
      /\ Part000.post_rooms req_body
         = Ret (res_status_json 400 (ErrorBody (ZodError_message issues)))
      /\ run o (Part000.post_rooms req_body) db
         = (res_status_json 400 (ErrorBody (ZodError_message issues)), db, [])
  | inr input =>
      (exists fields, req_body = JObj fields /\ room_constraints fields input)
      /\ (forall e, fault o = Some e ->
            run o (Part000.post_rooms req_body) db
            = (res_status_json 400 (ErrorBody (pg_message e)), db,
               [Insert (Part000.new_room (next_id o) input)]))
      /\ (fault o = None -> is_Some (db !! next_id o) ->
            run o (Part000.post_rooms req_body) db
            = (res_status_json 400 (ErrorBody (pg_message duplicate_key)), db,
               [Insert (Part000.new_room (next_id o) input)]))
  end.
Proof.
  destruct (RoomSchema req_body) as [issues|input] eqn:Hparse.
  - split; [|split].
    + intros fields input -> Hc.
      assert (RoomSchema (JObj fields) = inr input) by (apply RoomSchema_inr; eauto).
      congruence.
    + unfold Part000.post_rooms, parse. rewrite Hparse. reflexivity.
    + rewrite run_post_rooms, Hparse. reflexivity.
  - split; [|split].
    + apply RoomSchema_inr. exact Hparse.
    + intros e He. rewrite run_post_rooms, Hparse, He. reflexivity.
    + intros Hf [row Hrow]. rewrite run_post_rooms, Hparse, Hf, Hrow. reflexivity.
Qed.

Lemma create_validates_before_insert_witness :
  run (failing "fetch failed") (Part000.post_rooms (standup None)) (one_room "scheduled")
  = (res_status_json 400 (ErrorBody "fetch failed"), one_room "scheduled",
     [Insert (standup_room "V1StGXR8_Z" 11%float)]).
Proof.
  apply (proj1 (proj2 (create_validates_before_insert (failing "fetch failed")
                         (standup None) (one_room "scheduled")))
           {| pg_code := "XX000"; pg_message := "fetch failed" |}).
  reflexivity.
Defined.

(** C6, the claim as stated fails: a refused request and a failed write of
    an accepted request are both answered 400 with a body [{ error }], and
    when the store words its failure as zod words the refusal the two
    responses are one and the same: nothing in the response names the kind. *)
Lemma create_error_kinds_conflated :
  RoomSchema nameless = inl [{| issue_code := too_small; issue_path := ["name"] |}]
  /\ (exists input, RoomSchema (standup None) = inr input)
  /\ fst (fst (run quiet (Part000.post_rooms nameless) ∅))
     = res_status_json 400 (ErrorBody "[{code:too_small,path:[name]}]")
  /\ fst (fst (run (failing "fetch failed") (Part000.post_rooms (standup None)) ∅))
     = res_status_json 400 (ErrorBody "fetch failed")
  /\ fst (fst (run (failing "[{code:too_small,path:[name]}]")
                 (Part000.post_rooms (standup None)) ∅))
     = fst (fst (run quiet (Part000.post_rooms nameless) ∅)).
Proof. repeat apply conj; try reflexivity. eexists. reflexivity. Qed.


(** ** One request at a time *)

Lemma serve_post_rooms (o : Oracle) (req_body : json) (db : gmap string obj) :
  serve o (PostRooms req_body) db =
  match RoomSchema req_body with
  | inl issues => (res_status_json 400 (ErrorBody (ZodError_message issues)), db)
  | inr input =>
      let row := Part000.new_room (next_id o) input in
      match fault o, db !! next_id o with
      | Some e, _ => (res_status_json 400 (ErrorBody (pg_message e)), db)
      | None, Some _ => (res_status_json 400 (ErrorBody (pg_message duplicate_key)), db)
      | None, None => (res_json (RoomBody (Some row)), <[next_id o := row]> db)
      end
  end.
Proof.
  unfold serve, route. rewrite run_post_rooms.
  destruct (RoomSchema req_body); [reflexivity|]. cbv zeta.
  destruct (fault o), (db !! next_id o); reflexivity.
Qed.

Lemma serve_get_room (o : Oracle) (id : string) (db : gmap string obj) :
  serve o (GetRoom id) db =
  match fault o, db !! id with
  | None, Some room => (res_json (RoomBody (Some room)), db)
  | _, _ => (res_status_json 404 (ErrorBody "Room not found"), db)
  end.
Proof.
  unfold serve, route. rewrite run_get_rooms_id.
  destruct (fault o), (db !! id); reflexivity.
Qed.

Lemma serve_post_close (o : Oracle) (id : string) (db : gmap string obj) :
  serve o (PostClose id) db =
  match fault o, db !! id with
  | Some e, _ => (res_status_json 400 (ErrorBody (pg_message e)), db)
  | None, Some room =>
      (res_json (RoomBody (Some (obj_set "state" (JStr "closed") room))),
       <[id := obj_set "state" (JStr "closed") room]> db)
  | None, None => (res_status_json 400 (ErrorBody (pg_message no_rows)), db)
  end.
Proof.
  unfold serve, route. rewrite run_post_rooms_id_close.
  destruct (fault o), (db !! id); reflexivity.
Qed.

Lemma serve_post_tokens_db (o : Oracle) (id : string) (req_body : json)
    (db : gmap string obj) :
  snd (serve o (PostTokens id req_body) db) = db.
Proof.
  unfold serve, route. rewrite run_post_rooms_id_tokens.
  destruct (TokenSchema req_body); [reflexivity|]. cbv zeta.
  destruct (unavailable _); [reflexivity|].
  destruct (jwt_sign _ _ _ _); reflexivity.
Qed.

(** What one request can do to the record under [id]: nothing, create it in
    state [scheduled], or set its state to [closed]. *)
Lemma serve_step (o : Oracle) (r : Request) (db : gmap string obj) (id : string) :
  let db' := snd (serve o r db) in
  db' !! id = db !! id
  \/ (db !! id = None
      /\ exists input, db' !! id = Some (Part000.new_room id input))
  \/ (exists room, db !! id = Some room
      /\ db' !! id = Some (obj_set "state" (JStr "closed") room)).
Proof.
  cbv zeta. destruct r as [b|i|i b|i].
  - rewrite serve_post_rooms. destruct (RoomSchema b) as [issues|input]; [auto|].
    cbv zeta. destruct (fault o); [auto|].
    destruct (db !! next_id o) eqn:Hfresh; [auto|]. cbn [snd].
    destruct (decide (next_id o = id)) as [<-|Hne].
    + right. left. rewrite lookup_insert_eq. eauto.
    + left. now rewrite lookup_insert_ne.
  - rewrite serve_get_room. destruct (fault o), (db !! i); auto.
  - rewrite serve_post_tokens_db. auto.
  - rewrite serve_post_close. destruct (fault o); [auto|].
    destruct (db !! i) as [room|] eqn:Hroom; [|auto]. cbn [snd].
    destruct (decide (i = id)) as [<-|Hne].
    + right. right. rewrite lookup_insert_eq. eauto.
    + left. now rewrite lookup_insert_ne.
Qed.

(** No request removes a record. *)
Lemma serve_keeps (o : Oracle) (r : Request) (db : gmap string obj) (id : string) :
  is_Some (db !! id) -> is_Some (snd (serve o r db) !! id).
Proof.
  intros [room Hroom]. destruct (serve_step o r db id) as [H|[[H _]|(room' & _ & H)]].
  - rewrite H, Hroom. eauto.
  - congruence.
  - rewrite H. eauto.
Qed.

Lemma serve_all_cons (o : Oracle) (r : Request) (rest : list (Oracle * Request))
    (db : gmap string obj) :
  serve_all ((o, r) :: rest) db
  = (fst (serve o r db) :: fst (serve_all rest (snd (serve o r db))),
     snd (serve_all rest (snd (serve o r db)))).
Proof.
  simpl. destruct (serve o r db) as [resp db1]. simpl.
  destruct (serve_all rest db1); reflexivity.
Qed.

Lemma serve_all_keeps (reqs : list (Oracle * Request)) :
  forall (db : gmap string obj) (id : string),
    is_Some (db !! id) -> is_Some (snd (serve_all reqs db) !! id).
Proof.
  induction reqs as [|[o r] rest IH]; intros db id H; [exact H|].
  rewrite serve_all_cons. cbn [snd]. apply IH, serve_keeps, H.
Qed.

(** A creation that succeeds returns the room it stored, under the id that
    [nanoid] drew, which was not in the table before. *)
Lemma serve_post_rooms_200 (o : Oracle) (req_body : json) (db : gmap string obj) :
  status (fst (serve o (PostRooms req_body) db)) = 200 ->
  exists input,
    RoomSchema req_body = inr input
    /\ fault o = None
    /\ db !! next_id o = None
    /\ serve o (PostRooms req_body) db
       = (res_json (RoomBody (Some (Part000.new_room (next_id o) input))),
          <[next_id o := Part000.new_room (next_id o) input]> db).
Proof.
  rewrite serve_post_rooms.
  destruct (RoomSchema req_body) as [issues|input]; [discriminate|]. cbv zeta.
  destruct (fault o); [discriminate|].
  destruct (db !! next_id o); [discriminate|]. eauto.
Qed.

(** In a run, the id of a room created with success was not in the table
    the run started from. *)
Lemma created_id_fresh (reqs : list (Oracle * Request)) :
  forall (db : gmap string obj) (j : nat) (o : Oracle) (req_body : json) (resp : Response),
    reqs !! j = Some (o, PostRooms req_body) ->
    fst (serve_all reqs db) !! j = Some resp ->
    status resp = 200 ->
    created_id resp = Some (next_id o) /\ db !! next_id o = None.
Proof.
  induction reqs as [|[o0 r0] rest IH]; intros db j o b resp Hreq Hresp H200;
    [discriminate|].
  rewrite serve_all_cons in Hresp. cbn [fst] in Hresp.
  destruct j as [|j]; simpl in Hreq, Hresp.
  - injection Hreq as -> ->. injection Hresp as <-.
    apply serve_post_rooms_200 in H200 as (input & _ & _ & Hfresh & ->).
    split; [reflexivity | exact Hfresh].
  - destruct (IH _ _ _ _ _ Hreq Hresp H200) as [Hid Hfresh]. split; [exact Hid|].
    destruct (db !! next_id o) eqn:E; [|reflexivity].
    assert (is_Some (snd (serve o0 r0 db) !! next_id o)) as [x Hx]
      by (apply serve_keeps; eauto).
    congruence.
Qed.

(** C7: a creation that succeeds returns a room in state [scheduled] whose
    id is the one [nanoid] drew, whatever the request holds (an [id] or a
    [state] in the request is dropped); a request that meets the constraints
    succeeds when the table answers and the id is new; and in any run two
    creations that succeed return different ids. *)
Theorem create_scheduled_with_fresh_id :
  (forall (o : Oracle) (req_body : json) (db : gmap string obj),
      status (fst (serve o (PostRooms req_body) db)) = 200 ->
      exists room,
        body (fst (serve o (PostRooms req_body) db)) = RoomBody (Some room)
        /\ room_state room = Some (JStr "scheduled")
        /\ obj_get "id" room = Some (JStr (next_id o))
        /\ db !! next_id o = None
        /\ snd (serve o (PostRooms req_body) db) !! next_id o = Some room)
  /\ (forall (o : Oracle) (fields : obj) (input : RoomInput) (db : gmap string obj),
        room_constraints fields input -> fault o = None -> db !! next_id o = None ->
        fst (serve o (PostRooms (JObj fields)) db)
        = res_json (RoomBody (Some (Part000.new_room (next_id o) input))))
  /\ created_id (fst (serve quiet (PostRooms forged) ∅)) = Some "V1StGXR8_Z"
  /\ (forall (reqs : list (Oracle * Request)) (db : gmap string obj) (i j : nat)
             (oi oj : Oracle) (bi bj : json) (ri rj : Response),
        i < j ->
        reqs !! i = Some (oi, PostRooms bi) -> reqs !! j = Some (oj, PostRooms bj) ->
        fst (serve_all reqs db) !! i = Some ri -> fst (serve_all reqs db) !! j = Some rj ->
        status ri = 200 -> status rj = 200 ->
        exists idi idj,
          created_id ri = Some idi /\ created_id rj = Some idj /\ idi <> idj).
Proof.
  repeat apply conj.
  - intros o b db H200.
    apply serve_post_rooms_200 in H200 as (input & _ & _ & Hfresh & ->).
    exists (Part000.new_room (next_id o) input). cbn [fst snd body res_json].
    rewrite lookup_insert_eq. auto.
  - intros o fields input db Hc Hf Hfresh.
    assert (H : RoomSchema (JObj fields) = inr input) by (apply RoomSchema_inr; eauto).
    rewrite serve_post_rooms, H, Hf, Hfresh. reflexivity.
  - reflexivity.
  - induction reqs as [|[o0 r0] rest IH]; intros db i j oi oj bi bj ri rj Hij Hi Hj Hri Hrj Si Sj;
      [discriminate|].
    rewrite serve_all_cons in Hri, Hrj. cbn [fst] in Hri, Hrj.
    destruct j as [|j]; [lia|]. simpl in Hj, Hrj.
    destruct i as [|i]; simpl in Hi, Hri.
    + injection Hi as -> ->. injection Hri as <-.
      destruct (created_id_fresh _ _ _ _ _ _ Hj Hrj Sj) as [Hidj Hfresh].
      apply serve_post_rooms_200 in Si as (input & _ & _ & _ & Hs).
      rewrite Hs in Hfresh |- *. cbn [fst snd] in *.
      exists (next_id oi), (next_id oj). repeat split; auto.
      intros E. rewrite <- E, lookup_insert_eq in Hfresh. discriminate.
    + eapply (IH _ i j); eauto. lia.
Qed.

Lemma create_scheduled_with_fresh_id_witness :
  exists idi idj,
    created_id (res_json (RoomBody (Some (standup_room "V1StGXR8_Z" 11%float)))) = Some idi
    /\ created_id (res_json (RoomBody (Some (standup_room "Uakgb_J5m9" 11%float)))) = Some idj
    /\ idi <> idj.
Proof.
  eapply (proj2 (proj2 (proj2 create_scheduled_with_fresh_id))
            [(quiet, PostRooms (standup None)); (quiet_later, PostRooms (standup None))]
            ∅ 0 1);
    [lia | reflexivity | reflexivity | reflexivity | reflexivity | reflexivity | reflexivity].
Defined.


(** ** The life of a room *)

Lemma closed_is_closed (room : obj) :
  room_state room = Some (JStr "closed") ->
  js_is_string "closed" (obj_get "state" room) = true.
Proof. unfold room_state. intros ->. reflexivity. Qed.

Lemma serve_post_tokens_closed (o : Oracle) (id : string) (req_body : json)
    (db : gmap string obj) (room : obj) :
  db !! id = Some room -> room_state room = Some (JStr "closed") ->
  serve o (PostTokens id req_body) db
  = (if valid_token_request req_body then RoomUnavailableError else TokenValidationError,
     db).
Proof.
  intros Hroom Hclosed. unfold serve, route.
  destruct (valid_token_request req_body) eqn:Hv.
  - apply TokenSchema_valid in Hv as [input Hv].
    rewrite (run_post_rooms_id_tokens_valid _ _ _ _ _ Hv), Hroom.
    rewrite (closed_is_closed _ Hclosed). destruct (fault o); reflexivity.
  - apply TokenSchema_invalid in Hv as [issues Hv].
    rewrite run_post_rooms_id_tokens, Hv. reflexivity.
Qed.

Lemma set_closed (room : obj) :
  room_state (obj_set "state" (JStr "closed") room) = Some (JStr "closed").
Proof. apply obj_get_set_eq. Qed.

(** A closed room stays closed, whatever is served next. *)
Lemma serve_keeps_closed (o : Oracle) (r : Request) (db : gmap string obj)
    (id : string) (room : obj) :
  db !! id = Some room -> room_state room = Some (JStr "closed") ->
  exists room', snd (serve o r db) !! id = Some room'
                /\ room_state room' = Some (JStr "closed").
Proof.
  intros Hroom Hclosed.
  destruct (serve_step o r db id) as [H|[[H _]|(room0 & H0 & H)]].
  - exists room. rewrite H. auto.
  - congruence.
  - eexists. split; [exact H | apply set_closed].
Qed.

Lemma serve_all_keeps_closed (reqs : list (Oracle * Request)) :
  forall (db : gmap string obj) (id : string) (room : obj),
    db !! id = Some room -> room_state room = Some (JStr "closed") ->
    exists room', snd (serve_all reqs db) !! id = Some room'
                  /\ room_state room' = Some (JStr "closed").
Proof.
  induction reqs as [|[o r] rest IH]; intros db id room Hroom Hclosed; [eauto|].
  rewrite serve_all_cons. cbn [snd].
  destruct (serve_keeps_closed o r db id room Hroom Hclosed) as (room1 & H1 & Hc1).
  eapply IH; eauto.
Qed.

(** C8: once a close of [id] has succeeded, and whatever requests are served
    after it, the room is in the table with state [closed]: a get that the
    table answers returns it with that state, and no get returns the room
    in another state; a token request for [id] is never granted, and a valid
    one is answered [Room not available]. *)
Theorem close_is_final (o : Oracle) (id : string) (db : gmap string obj)
    (later : list (Oracle * Request)) :
  status (fst (serve o (PostClose id) db)) = 200 ->
  let db' := snd (serve_all later (snd (serve o (PostClose id) db))) in
  (exists room, body (fst (serve o (PostClose id) db)) = RoomBody (Some room)
                /\ room_state room = Some (JStr "closed"))
  /\ (forall o', fault o' = None ->
        exists room, serve o' (GetRoom id) db' = (res_json (RoomBody (Some room)), db')
                     /\ room_state room = Some (JStr "closed"))
  /\ (forall o', status (fst (serve o' (GetRoom id) db')) = 200 ->
        exists room, body (fst (serve o' (GetRoom id) db')) = RoomBody (Some room)
                     /\ room_state room = Some (JStr "closed"))
  /\ (forall o' req_body, valid_token_request req_body = true ->
        serve o' (PostTokens id req_body) db' = (RoomUnavailableError, db'))
  /\ (forall o' req_body, status (fst (serve o' (PostTokens id req_body) db')) = 400).
Proof.
  intros H200. cbv zeta.
  assert (Hclose : exists room,
             serve o (PostClose id) db
             = (res_json (RoomBody (Some (obj_set "state" (JStr "closed") room))),
                <[id := obj_set "state" (JStr "closed") room]> db)).
  { rewrite serve_post_close in H200 |- *.
    destruct (fault o); [discriminate|].
    destruct (db !! id) as [room|]; [eauto | discriminate]. }
  destruct Hclose as [room0 Hclose]. rewrite Hclose. cbn [fst snd].
  destruct (serve_all_keeps_closed later (<[id := obj_set "state" (JStr "closed") room0]> db)
              id _ (lookup_insert_eq _ _ _) (set_closed room0))
    as (room & Hroom & Hclosed).
  repeat apply conj.
  - eexists. split; [reflexivity | apply set_closed].
  - intros o' Hf. exists room. rewrite serve_get_room, Hf, Hroom. auto.
  - intros o'. rewrite serve_get_room, Hroom.
    destruct (fault o'); [discriminate|]. eauto.
  - intros o' b Hv. rewrite (serve_post_tokens_closed _ _ _ _ _ Hroom Hclosed), Hv.
    reflexivity.
  - intros o' b. rewrite (serve_post_tokens_closed _ _ _ _ _ Hroom Hclosed).
    destruct (valid_token_request b); reflexivity.
Qed.

Lemma close_is_final_witness :
  let db' := snd (serve_all [(quiet_later, PostRooms (standup None));
                             (quiet, PostClose "r1");
                             (quiet, PostTokens "r1" (token_request "host" "Ann"))]
                    (snd (serve quiet (PostClose "r1") (one_room "scheduled")))) in
  (exists room, body (fst (serve quiet (PostClose "r1") (one_room "scheduled")))
                = RoomBody (Some room)
                /\ room_state room = Some (JStr "closed"))
  /\ (forall o', fault o' = None ->
        exists room, serve o' (GetRoom "r1") db' = (res_json (RoomBody (Some room)), db')
                     /\ room_state room = Some (JStr "closed"))
  /\ (forall o', status (fst (serve o' (GetRoom "r1") db')) = 200 ->
        exists room, body (fst (serve o' (GetRoom "r1") db')) = RoomBody (Some room)
                     /\ room_state room = Some (JStr "closed"))
  /\ (forall o' req_body, valid_token_request req_body = true ->
        serve o' (PostTokens "r1" req_body) db' = (RoomUnavailableError, db'))
  /\ (forall o' req_body, status (fst (serve o' (PostTokens "r1" req_body) db')) = 400).
Proof.
  apply (close_is_final quiet "r1" (one_room "scheduled")). reflexivity.
Defined.

Lemma serve_two_states (o : Oracle) (r : Request) (db : gmap string obj) :
  two_states db -> two_states (snd (serve o r db)).
Proof.
  intros Hdb id room' Hroom'.
  destruct (serve_step o r db id) as [H|[[_ [input H]]|(room & H0 & H)]].
  - rewrite H in Hroom'. eauto.
  - rewrite H in Hroom'. injection Hroom' as <-. left. reflexivity.
  - rewrite H in Hroom'. injection Hroom' as <-. right. apply set_closed.
Qed.

Lemma serve_all_two_states (reqs : list (Oracle * Request)) :
  forall db, two_states db -> two_states (snd (serve_all reqs db)).
Proof.
  induction reqs as [|[o r] rest IH]; intros db Hdb; [exact Hdb|].
  rewrite serve_all_cons. cbn [snd]. apply IH, serve_two_states, Hdb.
Qed.

(** C9: a request leaves the record under an id as it is, or creates it in
    state [scheduled], or sets its state to [closed] and changes nothing
    else in it; no record is removed.  So a closed room stays closed, and in
    a run that starts from the empty table every room is in state
    [scheduled] or [closed]. *)
Theorem room_state_moves_forward :
  (forall (o : Oracle) (r : Request) (db : gmap string obj) (id : string),
      match db !! id, snd (serve o r db) !! id with
      | None, None => True
      | None, Some room' => room_state room' = Some (JStr "scheduled")
      | Some room, Some room' =>
          room' = room \/ room' = obj_set "state" (JStr "closed") room
      | Some _, None => False
      end)
  /\ (forall (reqs : list (Oracle * Request)) (db : gmap string obj) (id : string)
             (room : obj),
        db !! id = Some room -> room_state room = Some (JStr "closed") ->
        exists room', snd (serve_all reqs db) !! id = Some room'
                      /\ room_state room' = Some (JStr "closed"))
  /\ (forall reqs : list (Oracle * Request), two_states (snd (serve_all reqs ∅))).
Proof.
  repeat apply conj.
  - intros o r db id.
    destruct (serve_step o r db id) as [H|[[H0 [input H]]|(room & H0 & H)]].
    + rewrite H. destruct (db !! id); auto.
    + rewrite H, H0. reflexivity.
    + rewrite H, H0. auto.
  - intros reqs. apply serve_all_keeps_closed.
  - intros reqs. apply serve_all_two_states. intros id room H.
    rewrite lookup_empty in H. discriminate.
Qed.

Lemma room_state_moves_forward_witness :
  exists room', snd (serve_all [(quiet, PostClose "r1"); (quiet, PostRooms forged)]
                       (one_room "closed")) !! "r1" = Some room'
                /\ room_state room' = Some (JStr "closed").
Proof.
  eapply (proj1 (proj2 room_state_moves_forward)); reflexivity.
Defined.


(** ** Room creation in part_002 *)

(** The creation route of part_002 never applies [RoomSchema]: whenever the
    two dates of the request convert, the insert is sent with the name and
    the capacity as they came, whether or not they meet the constraints. *)
Theorem part002_create_inserts_unvalidated (toISOString : option json -> option string)
    (o : Oracle) (fields : obj) (db : gmap string obj) (s e : string) :
  toISOString (obj_get "startAt" fields) = Some s ->
  toISOString (obj_get "endAt" fields) = Some e ->
  exists row,
    snd (run o (Part002.post_rooms toISOString (JObj fields)) db) = [Insert row]
    /\ obj_get "name" row = obj_get "name" fields
    /\ obj_get "capacity" row = Some (default JNull (obj_get "capacity" fields))
    /\ room_state row = Some (JStr "scheduled")
    /\ obj_get "id" row = Some (JStr (next_id o)).
Proof.
  intros Hs He. unfold Part002.post_rooms, Part002.iso, Part002.prop.
  cbn [lift try_catch bind bind_try await throw ok run answer].
  rewrite Hs. cbn [lift try_catch bind bind_try await throw ok run answer].
  rewrite He. cbn [lift try_catch bind bind_try await throw ok run answer].
  eexists. split.
  - destruct (fault o) as [err|]; [reflexivity|].
    match goal with
    | |- context [query ?q db] => destruct (query q db) as [[d [err|]] db1]
    end; reflexivity.
  - unfold room_state, Part002.or_null, Part002.with_prop.
    destruct (obj_get "name" fields), (obj_get "timezone" fields); repeat split; reflexivity.
Qed.

Lemma part002_create_inserts_unvalidated_witness :
  (exists issues, RoomSchema (JObj oversized) = inl issues)
  /\ exists row,
       snd (run quiet (Part002.post_rooms scenario_dates (JObj oversized)) ∅) = [Insert row]
       /\ obj_get "name" row = obj_get "name" oversized
       /\ obj_get "capacity" row = Some (default JNull (obj_get "capacity" oversized))
       /\ room_state row = Some (JStr "scheduled")
       /\ obj_get "id" row = Some (JStr (next_id quiet)).
Proof.
  split; [eexists; reflexivity|].
  eapply (part002_create_inserts_unvalidated scenario_dates quiet oversized ∅); reflexivity.
Defined.


(** ** The scenario of the specification *)

(** Create the stand-up room with capacity 5, issue a token for Bob, close
    the room, ask for a token again. *)
Example specification_scenario :
  fst (serve_all
         [(quiet, PostRooms (standup (Some (JNum 5%float))));
          (quiet, PostTokens "V1StGXR8_Z" (token_request "participant" "Bob"));
          (quiet, PostClose "V1StGXR8_Z");
          (quiet, PostTokens "V1StGXR8_Z" (token_request "participant" "Bob"))] ∅)
  = [res_json (RoomBody (Some (standup_room "V1StGXR8_Z" 5%float)));
     res_json (TokenBody
                 {| jwt_claims := [("roomId", JStr "V1StGXR8_Z");
                                   ("role", JStr "participant");
                                   ("identity", JStr "Bob")];
                    jwt_iat := 1735722000; jwt_exp := 1735722900;
                    jwt_key := "secret" |});
     res_json (RoomBody (Some (obj_set "state" (JStr "closed")
                                 (standup_room "V1StGXR8_Z" 5%float))));
     RoomUnavailableError].
Proof. reflexivity. Qed.


(** * Further properties of the routes *)

(** ** Reading a room *)

(** [GET /rooms/:id] of part_000 makes the one select and leaves the table
    as it is.  It answers 200 exactly when the table answers and holds the
    room, and the body is then the stored record; a missing room and a failed
    read get one and the same 404 [Room not found]. *)
Theorem get_room_reads_only (o : Oracle) (id : string) (db : gmap string obj) :
  snd (run o (Part000.get_rooms_id id) db) = [SelectById id]
  /\ snd (fst (run o (Part000.get_rooms_id id) db)) = db
  /\ (status (fst (fst (run o (Part000.get_rooms_id id) db))) = 200
      <-> fault o = None /\ is_Some (db !! id))
  /\ (forall room, fault o = None -> db !! id = Some room ->
        fst (fst (run o (Part000.get_rooms_id id) db)) = res_json (RoomBody (Some room)))
  /\ (fault o <> None \/ db !! id = None ->
        fst (fst (run o (Part000.get_rooms_id id) db))
        = res_status_json 404 (ErrorBody "Room not found")).
Proof.
  rewrite run_get_rooms_id. split; [|split; [|split; [|split]]].
  - destruct (fault o), (db !! id); reflexivity.
  - destruct (fault o), (db !! id); reflexivity.
  - destruct (fault o) as [e|], (db !! id) as [room|]; cbn; split;
      try discriminate; try reflexivity;
      try (intros [_ [x [=]]]; fail); try (intros [[=] _]; fail); eauto.
  - intros room -> ->. reflexivity.
  - intros [H| ->].
    + destruct (fault o); [reflexivity | congruence].
    + destruct (fault o); reflexivity.
Qed.

Lemma get_room_reads_only_witness :
  fst (fst (run (failing "fetch failed") (Part000.get_rooms_id "r1") (one_room "scheduled")))
  = res_status_json 404 (ErrorBody "Room not found").
Proof.
  apply (proj2 (proj2 (proj2 (proj2
           (get_room_reads_only (failing "fetch failed") "r1" (one_room "scheduled")))))).
  left. discriminate.
Defined.

(** ** Closing a room *)

Lemma obj_set_twice (k : string) (v : json) (o : obj) :
  obj_set k v (obj_set k v o) = obj_set k v o.
Proof.
  induction o as [|[k' v'] o IH]; simpl.
  - now rewrite String.eqb_refl.
  - destruct (String.eqb k k') eqn:E; simpl; rewrite E; [reflexivity | now rewrite IH].
Qed.

(** [POST /rooms/:id/close] of part_000 sends the one update.  When the
    table fails or holds no such room the answer is 400 with the message of
    the store and nothing is written.  Otherwise the answer is the record
    with [state] set to [closed] and every other field as it was, that record
    replaces the old one, and no other record is touched.  Closing again
    gives the same answer and the same table. *)
Theorem close_sets_state_only (o : Oracle) (id : string) (db : gmap string obj) :
  snd (run o (Part000.post_rooms_id_close id) db)
  = [UpdateById [("state", JStr "closed")] id]
  /\ (forall e, fault o = Some e ->
        serve o (PostClose id) db = (res_status_json 400 (ErrorBody (pg_message e)), db))
  /\ (fault o = None -> db !! id = None ->
        serve o (PostClose id) db
        = (res_status_json 400 (ErrorBody (pg_message no_rows)), db))
  /\ (forall room, fault o = None -> db !! id = Some room ->
        exists room',
          serve o (PostClose id) db = (res_json (RoomBody (Some room')), <[id := room']> db)
          /\ room_state room' = Some (JStr "closed")
          /\ (forall k, k <> "state" -> obj_get k room' = obj_get k room)
          /\ (forall o', fault o' = None ->
                serve o' (PostClose id) (<[id := room']> db)
                = (res_json (RoomBody (Some room')), <[id := room']> db)))
  /\ (forall id', id' <> id -> snd (serve o (PostClose id) db) !! id' = db !! id').
Proof.
  split; [|split; [|split; [|split]]].
  - rewrite run_post_rooms_id_close. destruct (fault o), (db !! id); reflexivity.
  - intros e He. rewrite serve_post_close, He. reflexivity.
  - intros Hf Hroom. rewrite serve_post_close, Hf, Hroom. reflexivity.
  - intros room Hf Hroom. exists (obj_set "state" (JStr "closed") room).
    repeat apply conj.
    + rewrite serve_post_close, Hf, Hroom. reflexivity.
    + apply set_closed.
    + intros k Hk. now apply obj_get_set_ne.
    + intros o' Hf'. rewrite serve_post_close, Hf', lookup_insert_eq.
      now rewrite obj_set_twice, insert_insert_eq.
  - intros id' Hne. rewrite serve_post_close.
    destruct (fault o); [reflexivity|]. destruct (db !! id); [|reflexivity].
    cbn [snd]. now rewrite lookup_insert_ne.
Qed.

Lemma close_sets_state_only_witness :
  exists room',
    serve quiet (PostClose "r1") (one_room "scheduled")
    = (res_json (RoomBody (Some room')), <["r1" := room']> (one_room "scheduled"))
    /\ room_state room' = Some (JStr "closed")
    /\ (forall k, k <> "state" ->
          obj_get k room'
          = obj_get k [("id", JStr "r1"); ("name", JStr "Standup"); ("state", JStr "scheduled")])
    /\ (forall o', fault o' = None ->
          serve o' (PostClose "r1") (<["r1" := room']> (one_room "scheduled"))
          = (res_json (RoomBody (Some room')), <["r1" := room']> (one_room "scheduled"))).
Proof.
  apply (proj1 (proj2 (proj2 (proj2
           (close_sets_state_only quiet "r1" (one_room "scheduled")))))); reflexivity.
Defined.

(** ** Issuing a token *)

(** The token route of part_000 grants a token exactly when the request is
    valid, the table answers, the room is there and its state is not the
    string [closed]: a room in any other state, or with no state at all, is
    joinable. *)
Theorem token_granted_iff (o : Oracle) (id : string) (req_body : json)
    (db : gmap string obj) :
  status (fst (fst (run o (Part000.post_rooms_id_tokens id req_body) db))) = 200
  <-> valid_token_request req_body = true
      /\ fault o = None
      /\ exists room, db !! id = Some room /\ room_state room <> Some (JStr "closed").
Proof.
  destruct (valid_token_request req_body) eqn:Hv.
  - destruct (proj1 (TokenSchema_valid req_body) Hv) as [input Hparse].
    rewrite (run_post_rooms_id_tokens_valid _ _ _ _ _ Hparse).
    destruct (fault o) as [e|].
    { split; [discriminate | intros (_ & [=] & _)]. }
    destruct (db !! id) as [room|].
    + destruct (js_is_string "closed" (obj_get "state" room)) eqn:Hc; cbn.
      * split; [discriminate|]. intros (_ & _ & room' & [= <-] & Hopen).
        apply room_open in Hopen. congruence.
      * split; [|reflexivity]. intros _. repeat split.
        exists room. split; [reflexivity|]. now apply room_open.
    + split; [discriminate | intros (_ & _ & room & [=] & _)].
  - destruct (TokenSchema_invalid _ Hv) as [issues Hparse].
    rewrite run_post_rooms_id_tokens, Hparse.
    split; [discriminate | intros ([=] & _)].
Qed.

Lemma token_granted_iff_witness :
  status (fst (fst (run quiet (Part000.post_rooms_id_tokens "r1" (token_request "host" "Ann"))
                      archived_room))) = 200.
Proof.
  apply (proj2 (token_granted_iff quiet "r1" (token_request "host" "Ann") archived_room)).
  split; [reflexivity|]. split; [reflexivity|].
  eexists. split; [reflexivity | discriminate].
Defined.

(** Every token of part_000 is signed with the value of [JWT_SECRET], and
    with the fixed key [secret] when the variable is unset or empty; a token
    signed that way passes [jwt.verify] under the key [secret]. *)
Theorem token_signing_key (o : Oracle) (id : string) (req_body : json)
    (db : gmap string obj) (token : Jwt) :
  body (fst (fst (run o (Part000.post_rooms_id_tokens id req_body) db))) = TokenBody token ->
  (forall s, environ o "JWT_SECRET" = Some s -> s <> EmptyString -> jwt_key token = s)
  /\ (environ o "JWT_SECRET" = None \/ environ o "JWT_SECRET" = Some EmptyString ->
        jwt_key token = "secret"
        /\ jwt_verify token "secret" (clock o) = inr token).
Proof.
  intros Hbody.
  assert (Htok : exists input, token = issued_token o id input).
  { destruct (TokenSchema req_body) as [issues|input] eqn:Hparse.
    - rewrite run_post_rooms_id_tokens, Hparse in Hbody. discriminate.
    - rewrite (run_post_rooms_id_tokens_valid _ _ _ _ _ Hparse) in Hbody.
      destruct (fault o); [discriminate|].
      destruct (db !! id); [|discriminate].
      destruct (js_is_string _ _); [discriminate|].
      injection Hbody as <-. eauto. }
  destruct Htok as [input ->]. cbn [issued_token jwt_key]. split.
  - intros s -> Hs. unfold or_default.
    destruct (String.eqb_spec s EmptyString); congruence.
  - intros H.
    assert (Hkey : or_default (environ o "JWT_SECRET") "secret" = "secret")
      by (destruct H as [-> | ->]; reflexivity).
    split; [exact Hkey|].
    unfold jwt_verify. cbn [issued_token jwt_key jwt_exp]. rewrite Hkey. cbn.
    destruct (Z.leb_spec (clock o / 1000 + 900) (clock o / 1000)); [lia | reflexivity].
Qed.

Lemma token_signing_key_witness :
  (forall s, environ keyed_world "JWT_SECRET" = Some s -> s <> EmptyString ->
     jwt_key (issued_token keyed_world "r1" {| role := host; displayName := "Ann" |}) = s)
  /\ (environ keyed_world "JWT_SECRET" = None
      \/ environ keyed_world "JWT_SECRET" = Some EmptyString ->
        jwt_key (issued_token keyed_world "r1" {| role := host; displayName := "Ann" |})
        = "secret"
        /\ jwt_verify (issued_token keyed_world "r1" {| role := host; displayName := "Ann" |})
             "secret" (clock keyed_world)
           = inr (issued_token keyed_world "r1" {| role := host; displayName := "Ann" |})).
Proof.
  apply (token_signing_key keyed_world "r1" (token_request "host" "Ann")
           (one_room "scheduled")).
  reflexivity.
Defined.


(** ** What every route has in common *)

Lemma serve_post_tokens (o : Oracle) (id : string) (req_body : json)
    (db : gmap string obj) :
  serve o (PostTokens id req_body) db
  = (fst (fst (run o (Part000.post_rooms_id_tokens id req_body) db)), db).
Proof.
  pose proof (serve_post_tokens_db o id req_body db) as H.
  unfold serve, route in *.
  destruct (run o (Part000.post_rooms_id_tokens id req_body) db) as [[resp db'] log].
  simpl in *. now subst.
Qed.

Lemma tokens_status (o : Oracle) (id : string) (req_body : json) (db : gmap string obj) :
  let resp := fst (fst (run o (Part000.post_rooms_id_tokens id req_body) db)) in
  (status resp = 200 /\ is_error_body (body resp) = false /\ fault o = None)
  \/ (status resp = 400 /\ is_error_body (body resp) = true).
Proof.
  cbv zeta. rewrite run_post_rooms_id_tokens.
  destruct (TokenSchema req_body) as [issues|input]; [right; split; reflexivity|].
  cbv zeta. destruct (fault o).
  { right. split; reflexivity. }
  destruct (unavailable _); [right; split; reflexivity|].
  destruct (jwt_sign _ _ _ _); [right | left]; repeat split; reflexivity.
Qed.

(** A response of part_000 is 200 with a room or a token, 400 with
    [{ error }], or 404 with [{ error }], the last from the get route alone.
    A failure of the store never shows as a success or as a server error: it
    is answered 404 by the get route and 400 by the others. *)
Theorem responses_are_200_400_404 (o : Oracle) (r : Request) (db : gmap string obj) :
  let resp := fst (serve o r db) in
  (status resp = 200 /\ is_error_body (body resp) = false
   \/ status resp = 400 /\ is_error_body (body resp) = true
   \/ status resp = 404 /\ is_error_body (body resp) = true /\ exists id, r = GetRoom id)
  /\ (forall e, fault o = Some e ->
        status resp = match r with GetRoom _ => 404 | _ => 400 end).
Proof.
  cbv zeta. destruct r as [b|id|id b|id].
  - rewrite serve_post_rooms. split.
    + destruct (RoomSchema b); [auto|]. cbv zeta.
      destruct (fault o), (db !! next_id o); auto.
    + intros e ->. destruct (RoomSchema b); reflexivity.
  - rewrite serve_get_room. split.
    + destruct (fault o), (db !! id); cbn; eauto 10.
    + intros e ->. reflexivity.
  - rewrite serve_post_tokens. cbn [fst]. split.
    + destruct (tokens_status o id b db) as [(H1 & H2 & _)|[H1 H2]]; auto.
    + intros e He. destruct (tokens_status o id b db) as [(_ & _ & H)|[H _]];
        [congruence | exact H].
  - rewrite serve_post_close. split.
    + destruct (fault o), (db !! id); auto.
    + intros e ->. reflexivity.
Qed.

Lemma responses_are_200_400_404_witness :
  status (fst (serve (failing "fetch failed") (PostRooms (standup None)) ∅)) = 400.
Proof.
  apply (proj2 (responses_are_200_400_404 (failing "fetch failed")
                  (PostRooms (standup None)) ∅)
           {| pg_code := "XX000"; pg_message := "fetch failed" |}).
  reflexivity.
Defined.

(** A request of part_000 sends at most one query to the table, the one of
    its route.  A request that sends none was refused at validation; the get
    and token routes leave the table as it is; and whenever the answer is not
    200 the table is unchanged, so a failed request writes nothing. *)
Theorem one_query_per_request (o : Oracle) (r : Request) (db : gmap string obj) :
  let resp := fst (fst (run o (route r) db)) in
  let db' := snd (fst (run o (route r) db)) in
  let log := snd (run o (route r) db) in
  (log = [] \/ exists q, log = [q] /\ is_query_of r q = true)
  /\ (log = [] -> status resp = 400 /\ exists b, r = PostRooms b \/ exists id, r = PostTokens id b)
  /\ (is_read r = true -> db' = db)
  /\ (status resp <> 200 -> db' = db).
Proof.
  cbv zeta. destruct r as [b|id|id b|id]; cbn [route is_read].
  - rewrite run_post_rooms.
    destruct (RoomSchema b) as [issues|input].
    { cbn. repeat split; eauto. }
    cbv zeta. destruct (fault o), (db !! next_id o); cbn;
      (split; [right; eexists; split; reflexivity|]);
      (split; [discriminate|]); (split; [discriminate|]); congruence.
  - rewrite run_get_rooms_id.
    destruct (fault o), (db !! id); cbn;
      (split; [right; eexists; split; [reflexivity | cbn; apply String.eqb_refl]|]);
      (split; [discriminate|]); auto.
  - rewrite run_post_rooms_id_tokens.
    destruct (TokenSchema b) as [issues|input].
    { cbn. repeat split; eauto. }
    cbv zeta.
    assert (Hq : is_query_of (PostTokens id b) (SelectById id) = true)
      by (cbn; apply String.eqb_refl).
    destruct (unavailable _); [|destruct (jwt_sign _ _ _ _)]; cbn [fst snd];
      (split; [right; eexists; split; [reflexivity | exact Hq]|]);
      (split; [discriminate|]); auto.
  - rewrite run_post_rooms_id_close.
    assert (Hq : is_query_of (PostClose id) (UpdateById [("state", JStr "closed")] id) = true)
      by (cbn; now rewrite String.eqb_refl).
    destruct (fault o), (db !! id); cbn [fst snd];
      (split; [right; eexists; split; [reflexivity | exact Hq]|]);
      (split; [discriminate|]); (split; [discriminate|]); cbn; congruence.
Qed.

Lemma one_query_per_request_witness :
  snd (fst (run (failing "fetch failed") (route (PostClose "r1")) (one_room "scheduled")))
  = one_room "scheduled".
Proof.
  apply (proj2 (proj2 (proj2 (one_query_per_request (failing "fetch failed")
                                (PostClose "r1") (one_room "scheduled"))))).
  discriminate.
Defined.


(** ** Creation, then the other routes *)

(** After a creation that succeeded, a get of the returned id that the table
    answers returns the very response the creation gave; a valid token
    request for that id is granted, with the id as [roomId]; and the records
    under every other id are as before. *)
Theorem create_then_get (o : Oracle) (req_body : json) (db : gmap string obj) :
  status (fst (serve o (PostRooms req_body) db)) = 200 ->
  let db' := snd (serve o (PostRooms req_body) db) in
  (forall o', fault o' = None ->
     serve o' (GetRoom (next_id o)) db' = (fst (serve o (PostRooms req_body) db), db'))
  /\ (forall o' b, valid_token_request b = true -> fault o' = None ->
        exists token,
          serve o' (PostTokens (next_id o) b) db' = (res_json (TokenBody token), db')
          /\ obj_get "roomId" (jwt_claims token) = Some (JStr (next_id o)))
  /\ (forall id, id <> next_id o -> db' !! id = db !! id).
Proof.
  intros H200. cbv zeta.
  apply serve_post_rooms_200 in H200 as (input & _ & _ & Hfresh & ->). cbn [fst snd].
  split; [|split].
  - intros o' Hf. now rewrite serve_get_room, Hf, lookup_insert_eq.
  - intros o' b Hv Hf. apply TokenSchema_valid in Hv as [tin Hparse].
    exists (issued_token o' (next_id o) tin). split; [|reflexivity].
    rewrite serve_post_tokens, (run_post_rooms_id_tokens_valid _ _ _ _ _ Hparse).
    rewrite Hf, lookup_insert_eq. reflexivity.
  - intros id Hne. now rewrite lookup_insert_ne.
Qed.

Lemma create_then_get_witness :
  serve quiet_later (GetRoom "V1StGXR8_Z") (snd (serve quiet (PostRooms (standup None)) ∅))
  = (fst (serve quiet (PostRooms (standup None)) ∅),
     snd (serve quiet (PostRooms (standup None)) ∅)).
Proof.
  refine (proj1 (create_then_get quiet (standup None) ∅ _) quiet_later _); reflexivity.
Defined.

(** ** Invariants of the table *)

Lemma serve_keyed_by_id (o : Oracle) (r : Request) (db : gmap string obj) :
  keyed_by_id db -> keyed_by_id (snd (serve o r db)).
Proof.
  intros Hdb id room' Hroom'.
  destruct (serve_step o r db id) as [H|[[_ [input H]]|(room & H0 & H)]];
    rewrite H in Hroom'.
  - eauto.
  - injection Hroom' as <-. reflexivity.
  - injection Hroom' as <-. rewrite obj_get_set_ne by discriminate. eauto.
Qed.

Lemma serve_keeps_fields (o : Oracle) (r : Request) (db : gmap string obj)
    (id : string) (room : obj) :
  db !! id = Some room ->
  exists room', snd (serve o r db) !! id = Some room'
                /\ forall k, k <> "state" -> obj_get k room' = obj_get k room.
Proof.
  intros Hroom.
  destruct (serve_step o r db id) as [H|[[H _]|(room0 & H0 & H)]].
  - exists room. rewrite H. auto.
  - congruence.
  - rewrite Hroom in H0. injection H0 as <-.
    eexists. split; [exact H|]. intros k Hk. now apply obj_get_set_ne.
Qed.

(** Over any run of part_000: a record keeps every field other than [state]
    as it was when the run began, [id] among them; and in a run from the
    empty table every record carries its key in its [id] field, so a get that
    succeeds returns a room whose [id] is the id asked for. *)
Theorem records_keep_their_fields :
  (forall (reqs : list (Oracle * Request)) (db : gmap string obj) (id : string) (room : obj),
      db !! id = Some room ->
      exists room', snd (serve_all reqs db) !! id = Some room'
                    /\ forall k, k <> "state" -> obj_get k room' = obj_get k room)
  /\ (forall reqs : list (Oracle * Request), keyed_by_id (snd (serve_all reqs ∅)))
  /\ (forall (reqs : list (Oracle * Request)) (o : Oracle) (id : string),
        status (fst (serve o (GetRoom id) (snd (serve_all reqs ∅)))) = 200 ->
        exists room,
          body (fst (serve o (GetRoom id) (snd (serve_all reqs ∅)))) = RoomBody (Some room)
          /\ obj_get "id" room = Some (JStr id)).
Proof.
  assert (Hkeyed : forall reqs db, keyed_by_id db -> keyed_by_id (snd (serve_all reqs db))).
  { induction reqs as [|[o r] rest IH]; intros db Hdb; [exact Hdb|].
    rewrite serve_all_cons. cbn [snd]. apply IH, serve_keyed_by_id, Hdb. }
  assert (Hempty : keyed_by_id ∅).
  { intros id room H. rewrite lookup_empty in H. discriminate. }
  split; [|split].
  - induction reqs as [|[o r] rest IH]; intros db id room Hroom; [eauto|].
    rewrite serve_all_cons. cbn [snd].
    destruct (serve_keeps_fields o r db id room Hroom) as (room1 & H1 & Hk1).
    destruct (IH _ _ _ H1) as (room2 & H2 & Hk2).
    exists room2. split; [exact H2|]. intros k Hk. rewrite Hk2, Hk1; auto.
  - intros reqs. apply Hkeyed, Hempty.
  - intros reqs o id. rewrite serve_get_room.
    destruct (fault o); [discriminate|].
    destruct (snd (serve_all reqs ∅) !! id) as [room|] eqn:Hroom; [|discriminate].
    intros _. exists room. split; [reflexivity|]. eapply Hkeyed; eauto.
Qed.

Lemma records_keep_their_fields_witness :
  exists room',
    snd (serve_all [(quiet, PostClose "r1"); (quiet_later, PostRooms forged)]
           (one_room "scheduled")) !! "r1" = Some room'
    /\ forall k, k <> "state" ->
         obj_get k room'
         = obj_get k [("id", JStr "r1"); ("name", JStr "Standup"); ("state", JStr "scheduled")].
Proof.
  apply (proj1 records_keep_their_fields). reflexivity.
Defined.

Lemma serve_size (o : Oracle) (r : Request) (db : gmap string obj) :
  size (snd (serve o r db))
  = size db + match r with
              | PostRooms _ => if Nat.eqb (status (fst (serve o r db))) 200 then 1 else 0
              | _ => 0
              end.
Proof.
  destruct r as [b|id|id b|id].
  - rewrite serve_post_rooms. destruct (RoomSchema b); [cbn; lia|]. cbv zeta.
    destruct (fault o); [cbn; lia|].
    destruct (db !! next_id o) eqn:Hfresh; [cbn; lia|]. cbn [fst snd status res_json].
    rewrite map_size_insert_None by exact Hfresh. cbn. lia.
  - rewrite serve_get_room. destruct (fault o), (db !! id); cbn; lia.
  - rewrite serve_post_tokens. cbn. lia.
  - rewrite serve_post_close. destruct (fault o); [cbn; lia|].
    destruct (db !! id) eqn:Hroom; [|cbn; lia]. cbn [snd].
    rewrite map_size_insert_Some by eauto. lia.
Qed.

(** Over any run of part_000 the table grows by one record for each
    creation answered 200 and by nothing else: no get, token request, close
    or refused creation adds a record, and nothing removes one. *)
Theorem table_grows_by_creations (reqs : list (Oracle * Request)) :
  forall db : gmap string obj,
    size (snd (serve_all reqs db))
    = size db + count_created reqs (fst (serve_all reqs db)).
Proof.
  induction reqs as [|[o r] rest IH]; intros db; [cbn; lia|].
  rewrite serve_all_cons. cbn [fst snd]. rewrite IH, serve_size.
  destruct r; cbn [count_created]; lia.
Qed.


(** ** What creation checks and what it does not *)

(** [RoomSchema] never compares the two dates: whenever a request is
    accepted, the request with [startAt] and [endAt] exchanged is accepted
    too, so a room that ends before it starts is created like any other. *)
Theorem date_order_unchecked (fields : obj) (input : RoomInput) :
  RoomSchema (JObj fields) = inr input ->
  RoomSchema (JObj (swap_dates fields input))
  = inr {| name := name input; capacity := capacity input;
           startAt := endAt input; endAt := startAt input;
           timezone := timezone input; recurring := recurring input |}.
Proof.
  intros H. apply RoomSchema_inr in H as (f & [= <-] & Hn & Hc & Hs & He & Htz & Hr).
  apply RoomSchema_inr. exists (swap_dates fields input). split; [reflexivity|].
  unfold room_constraints, swap_dates. cbn [name capacity startAt endAt timezone recurring].
  rewrite !(obj_get_set_ne "name"), !(obj_get_set_ne "capacity"),
    !(obj_get_set_ne "timezone"), !(obj_get_set_ne "recurring") by discriminate.
  rewrite obj_get_set_eq.
  rewrite (obj_get_set_ne "endAt" "startAt") by discriminate. rewrite obj_get_set_eq.
  intuition.
Qed.

Lemma date_order_unchecked_witness :
  RoomSchema (JObj backwards)
  = inr {| name := "Standup"; capacity := 11%float;
           startAt := "2025-01-01T09:30:00Z"; endAt := "2025-01-01T09:00:00Z";
           timezone := "UTC"; recurring := false |}.
Proof.
  apply (date_order_unchecked
           [("name", JStr "Standup"); ("startAt", JStr "2025-01-01T09:00:00Z");
            ("endAt", JStr "2025-01-01T09:30:00Z"); ("timezone", JStr "UTC")]
           {| name := "Standup"; capacity := 11%float;
              startAt := "2025-01-01T09:00:00Z"; endAt := "2025-01-01T09:30:00Z";
              timezone := "UTC"; recurring := false |}).
  reflexivity.
Defined.

(** The routes of part_000 read nothing of a request but the keys of their
    schema: two creation requests that agree on the six keys of [RoomSchema]
    are one and the same program, and so are two token requests that agree on
    [role] and [displayName].  Whatever else the client sends is dropped. *)
Theorem routes_read_schema_keys_only (a b : obj) :
  (agree_on RoomSchema_keys a b -> Part000.post_rooms (JObj a) = Part000.post_rooms (JObj b))
  /\ (agree_on TokenSchema_keys a b ->
        forall id, Part000.post_rooms_id_tokens id (JObj a)
                   = Part000.post_rooms_id_tokens id (JObj b)).
Proof.
  unfold agree_on, RoomSchema_keys, TokenSchema_keys. split; intros H.
  - repeat (apply Forall_cons in H as [? H]).
    unfold Part000.post_rooms, parse, RoomSchema, z_object, z_key. cbv beta iota.
    repeat match goal with
           | Hk : obj_get _ a = obj_get _ b |- _ => rewrite Hk; clear Hk
           end.
    reflexivity.
  - repeat (apply Forall_cons in H as [? H]). intros id.
    unfold Part000.post_rooms_id_tokens, parse, TokenSchema, z_object, z_key. cbv beta iota.
    repeat match goal with
           | Hk : obj_get _ a = obj_get _ b |- _ => rewrite Hk; clear Hk
           end.
    reflexivity.
Qed.

Lemma routes_read_schema_keys_only_witness :
  Part000.post_rooms forged
  = Part000.post_rooms
      (JObj [("name", JStr "Standup"); ("startAt", JStr "2025-01-01T09:00:00Z");
             ("endAt", JStr "2025-01-01T09:30:00Z"); ("timezone", JStr "UTC")]).
Proof.
  apply (proj1 (routes_read_schema_keys_only _ _)).
  repeat constructor.
Defined.

(** ** Room creation in part_001 *)

Lemma run_part001_post_rooms (toISOString : option json -> option string) (o : Oracle)
    (req_body : json) (db : gmap string obj) :
  run o (Part001Rooms.post_rooms toISOString req_body) db =
  match RoomSchema req_body with
  | inl issues => (res_status_json 400 (ErrorBody (ZodError_message issues)), db, [])
  | inr input =>
      match toISOString (Some (JStr (startAt input))),
            toISOString (Some (JStr (endAt input))) with
      | Some s, Some e =>
          let row := Part001Rooms.new_room (next_id o) input (JStr s) (JStr e) in
          match fault o, db !! next_id o with
          | Some err, _ =>
              (res_status_json 400 (ErrorBody (message_or_string (StoreError err))), db,
               [Insert row])
          | None, Some _ =>
              (res_status_json 400 (ErrorBody (pg_message duplicate_key)), db, [Insert row])
          | None, None =>
              (res_json (RoomBody (Some row)), <[next_id o := row]> db, [Insert row])
          end
      | _, _ => (res_status_json 400 (ErrorBody "Invalid time value"), db, [])
      end
  end.
Proof.
  unfold Part001Rooms.post_rooms, parse, Part002.iso.
  destruct (RoomSchema req_body) as [issues|input]; [reflexivity|].
  cbn [lift try_catch bind bind_try await throw ok run answer].
  destruct (toISOString (Some (JStr (startAt input)))) as [s|]; [|reflexivity].
  cbn [lift try_catch bind bind_try await throw ok run answer].
  destruct (toISOString (Some (JStr (endAt input)))) as [e|]; [|reflexivity].
  cbn [lift try_catch bind bind_try await throw ok run answer].
  destruct (fault o) as [err|]; [reflexivity|].
  unfold query, row_id. cbv zeta.
  assert (Hid : obj_get "id" (Part001Rooms.new_room (next_id o) input (JStr s) (JStr e))
                = Some (JStr (next_id o))) by reflexivity.
  rewrite Hid. destruct (db !! next_id o); reflexivity.
Qed.

(** The creation route of part_001 validates with [RoomSchema] before any
    call, as part_000 does.  It then converts the two dates: when one does
    not convert the answer is 400 [Invalid time value] and the table is not
    asked anything.  Otherwise it sends one insert, of a row in state
    [scheduled] under the id that [nanoid] drew, with the dates under
    [start_at] and [end_at]; the row part_000 inserts holds them under
    [startAt] and [endAt] instead, and neither row has the keys of the other. *)
Theorem part001_create (toISOString : option json -> option string) (o : Oracle)
    (req_body : json) (db : gmap string obj) :
  match RoomSchema req_body with
  | inl issues =>
      Part001Rooms.post_rooms toISOString req_body
      = Ret (res_status_json 400 (ErrorBody (ZodError_message issues)))
  | inr input =>
      match toISOString (Some (JStr (startAt input))),
            toISOString (Some (JStr (endAt input))) with
      | Some s, Some e =>
          exists row,
            snd (run o (Part001Rooms.post_rooms toISOString req_body) db) = [Insert row]
            /\ obj_get "id" row = Some (JStr (next_id o))
            /\ room_state row = Some (JStr "scheduled")
            /\ obj_get "start_at" row = Some (JStr s)
            /\ obj_get "end_at" row = Some (JStr e)
            /\ obj_get "startAt" row = None /\ obj_get "endAt" row = None
            /\ obj_get "startAt" (Part000.new_room (next_id o) input)
               = Some (JStr (startAt input))
            /\ obj_get "start_at" (Part000.new_room (next_id o) input) = None
            /\ obj_get "end_at" (Part000.new_room (next_id o) input) = None
      | _, _ =>
          run o (Part001Rooms.post_rooms toISOString req_body) db
          = (res_status_json 400 (ErrorBody "Invalid time value"), db, [])
      end
  end.
Proof.
  pose proof (run_part001_post_rooms toISOString o req_body db) as Hrun.
  destruct (RoomSchema req_body) as [issues|input] eqn:Hparse.
  - unfold Part001Rooms.post_rooms, parse. rewrite Hparse. reflexivity.
  - destruct (toISOString (Some (JStr (startAt input)))) as [s|];
      [|exact Hrun].
    destruct (toISOString (Some (JStr (endAt input)))) as [e|]; [|exact Hrun].
    exists (Part001Rooms.new_room (next_id o) input (JStr s) (JStr e)).
    split; [|repeat split; reflexivity].
    rewrite Hrun. cbv zeta. destruct (fault o), (db !! next_id o); reflexivity.
Qed.

Lemma part001_create_witness :
  exists row,
    snd (run quiet (Part001Rooms.post_rooms scenario_dates (standup None)) ∅) = [Insert row]
    /\ obj_get "id" row = Some (JStr "V1StGXR8_Z")
    /\ room_state row = Some (JStr "scheduled")
    /\ obj_get "start_at" row = Some (JStr "2025-01-01T09:00:00.000Z")
    /\ obj_get "end_at" row = Some (JStr "2025-01-01T09:30:00.000Z")
    /\ obj_get "startAt" row = None /\ obj_get "endAt" row = None
    /\ obj_get "startAt"
         (Part000.new_room "V1StGXR8_Z"
            {| name := "Standup"; capacity := 11%float;
               startAt := "2025-01-01T09:00:00Z"; endAt := "2025-01-01T09:30:00Z";
               timezone := "UTC"; recurring := false |})
       = Some (JStr "2025-01-01T09:00:00Z")
    /\ obj_get "start_at"
         (Part000.new_room "V1StGXR8_Z"
            {| name := "Standup"; capacity := 11%float;
               startAt := "2025-01-01T09:00:00Z"; endAt := "2025-01-01T09:30:00Z";
               timezone := "UTC"; recurring := false |}) = None
    /\ obj_get "end_at"
         (Part000.new_room "V1StGXR8_Z"
            {| name := "Standup"; capacity := 11%float;
               startAt := "2025-01-01T09:00:00Z"; endAt := "2025-01-01T09:30:00Z";
               timezone := "UTC"; recurring := false |}) = None.
Proof. exact (part001_create scenario_dates quiet (standup None) ∅). Defined.

(** ** Token issuance in part_001 *)

Lemma TokenSchema_token_request (r : Role) (n : string) :
  TokenSchema (token_request (Role_string r) n)
  = match z_string [SMin 1; SMax 50] ["displayName"] (Some (JStr n)) with
    | inl issues => inl issues
    | inr s => inr {| role := r; displayName := s |}
    end.
Proof.
  unfold TokenSchema, token_request, z_object, z_key.
  destruct r; cbn -[z_string]; destruct (z_string _ _ _); reflexivity.
Qed.

(** The token route of part_001 checks the role and then never uses it:
    two requests that differ in the role alone get the same answer, token
    included, so the token of a host and of a participant are alike. *)
Theorem part001_token_ignores_role (o : Oracle) (id : string) (r1 r2 : Role) (n : string)
    (db : gmap string obj) :
  run o (Part001.post_rooms_id_tokens id (token_request (Role_string r1) n)) db
  = run o (Part001.post_rooms_id_tokens id (token_request (Role_string r2) n)) db.
Proof.
  rewrite !run_livekit_tokens, !TokenSchema_token_request.
  destruct (z_string _ _ _); reflexivity.
Qed.

(** The token route of part_001 guards a token as part_000 does: a request
    that fails [TokenSchema] is answered 400 by a program that makes no call,
    here with the message of the [ZodError]; a valid request for a room that
    is missing or closed, or whose read fails, gets the one 400 [Room not
    available]; and the table is never written. *)
Theorem part001_token_checks (o : Oracle) (id : string) (req_body : json)
    (db : gmap string obj) :
  (valid_token_request req_body = false ->
     exists issues,
       Part001.post_rooms_id_tokens id req_body
       = Ret (res_status_json 400 (ErrorBody (ZodError_message issues))))
  /\ (valid_token_request req_body = true ->
        fault o <> None \/ db !! id = None
        \/ (exists room, db !! id = Some room /\ room_state room = Some (JStr "closed")) ->
        run o (Part001.post_rooms_id_tokens id req_body) db
        = (RoomUnavailableError, db, [SelectById id]))
  /\ snd (fst (run o (Part001.post_rooms_id_tokens id req_body) db)) = db.
Proof.
  split; [|split].
  - intros Hv. apply TokenSchema_invalid in Hv as [issues Hparse]. exists issues.
    unfold Part001.post_rooms_id_tokens, parse. rewrite Hparse. reflexivity.
  - intros Hv Hroom. apply TokenSchema_valid in Hv as [input Hparse].
    rewrite run_livekit_tokens, Hparse.
    destruct (fault o) as [e|]; [reflexivity|].
    destruct Hroom as [H|[->|(room & -> & Hc)]]; [congruence | reflexivity |].
    now rewrite (closed_is_closed _ Hc).
  - rewrite run_livekit_tokens.
    destruct (TokenSchema req_body); [reflexivity|].
    destruct (fault o); [reflexivity|]. destruct (db !! id); [|reflexivity].
    destruct (js_is_string _ _); [reflexivity|].
    destruct (AccessToken_new _ _ _); [reflexivity|].
    destruct (toJwt _ _); reflexivity.
Qed.

Lemma part001_token_checks_witness :
  run livekit_world (Part001.post_rooms_id_tokens "r1" (token_request "host" "Ann"))
    (one_room "closed")
  = (RoomUnavailableError, one_room "closed", [SelectById "r1"]).
Proof.
  apply (proj1 (proj2 (part001_token_checks livekit_world "r1" (token_request "host" "Ann")
                         (one_room "closed")))); [reflexivity|].
  right. right. eexists. split; reflexivity.
Defined.
